(** * psautohint / ufoFont.py : a shallow embedding

    The development follows [python/psautohint/ufoFont.py]:
    - the incremental cache ([UFOFontData.checkSkipGlyph], [readHashMap],
      [getGlyphProcessedPath], [getGlyphID]);
    - the affine transform of components ([UFOTransform]);
    - the GLIF -> bez encoder ([convertGlyphOutlineToBezString]);
    - the bez -> GLIF decoder ([convertBezToOutline], [fixStartPoint]);
    - the hint serialiser ([HintMask.addHintSet], [addHintList]);
    - the content hash builder ([buildGlyphHashValue]).

    Python dictionaries are [gmap]s, Python exceptions are values of [exn]
    carried by the [res] monad, a Python float is modelled by the rational
    number it denotes. *)

From Stdlib Require Import ZArith QArith String Ascii List Bool Lia.
From Stdlib Require Import DecimalString DecimalZ DecimalPos.
From Stdlib Require Import Sorted Permutation.
From stdpp Require Import gmap strings list.

Set Warnings "-register-all".

Local Open Scope string_scope.
Local Open Scope Z_scope.
Local Open Scope list_scope.

(** ** Exceptions and the result monad *)

(** The places of the file that raise [UFOParseError]. *)
Inductive ufo_error :=
  | ExceededLevels          (* "In parsing component, exceeded 10 levels of reference." *)
  | UnhandledFirstAndLast   (* "Unhandled case for first and last points in outline" *)
  | UnhandledFirst          (* "Unhandled case for first point in outline" *)
  | ArgumentStackError      (* "Argument stack error seen for curve point" *)
  | PointTypeNotSupported   (* "Point type not supported" *)
  | UnknownPointType        (* "Unknown Point type not supported" *)
  | UnknownTag              (* "Unknown tag ... in component" *)
  | MissingBase             (* "attribute missing from component" *)
  | MissingFromContents     (* "component glyph is missing from contents.plist." *)
  | ComponentFileMissing    (* "component file is missing" *)
  | GlyphNameNotFound       (* "Could not find glyph name ... in UFO font contents plist." *)
  | HashMapNewer.           (* "Hash map version is newer than program." *)

Inductive exn :=
  | UFOParseError (e : ufo_error)
  | BezParseError (token : string)
  | KeyError (key : string)
  | IndexError
  | ValueError
  | TypeError
  | AttributeError
  | ZeroDivisionError.

Inductive res (A : Type) :=
  | Ok (a : A)
  | Raise (e : exn).
Arguments Ok {A} a.
Arguments Raise {A} e.

Definition bind {A B} (m : res A) (k : A -> res B) : res B :=
  match m with
  | Ok a => k a
  | Raise e => Raise e
  end.

Notation "'let*' x ':=' m 'in' k" := (bind m (fun x => k))
  (at level 10, x name, m at level 100, k at level 200).

(** A [for] loop whose body may raise. *)
Fixpoint foldM {A S} (f : S -> A -> res S) (l : list A) (s : S) : res S :=
  match l with
  | [] => Ok s
  | a :: l' => let* s' := f s a in foldM f l' s'
  end.

(** [d[k]] on a Python dict. *)
Definition getitem {V} (d : gmap string V) (k : string) : res V :=
  match d !! k with
  | Some v => Ok v
  | None => Raise (KeyError k)
  end.

(** [l[i]] on a Python list, for [i >= 0]. *)
Definition getindex {A} (l : list A) (i : nat) : res A :=
  match nth_error l i with
  | Some v => Ok v
  | None => Raise IndexError
  end.

(** [x in l] on a list of strings. *)
Definition str_in (x : string) (l : list string) : bool :=
  existsb (String.eqb x) l.

(** ** Constants of the module *)

Definition kAdobHashMapVersionName : string := "hashMapVersion".
Definition kAdobHashMapVersion : Z * Z := (1, 0).
Definition kAutohintName : string := "autohint".
Definition kCheckOutlineName : string := "checkOutlines".
Definition kHStemName : string := "hstem".
Definition kVStemName : string := "vstem".
Definition kHStem3Name : string := "hstem3".
Definition kVStem3Name : string := "vstem3".
Definition kHintSetListName : string := "hintSetList".
Definition kFlexIndexListName : string := "flexList".
Definition kBaseFlexName : string := "flexCurve".
Definition kPointTag : string := "pointTag".
Definition kPointName : string := "name".
Definition kStackLimit : Z := 46.

(** ** Numbers and their text

    A float is the rational it denotes; an [int] is a [Z].  [pynum] keeps
    the distinction where the code tests it ([isinstance(pos, float)]) or
    prints with [%s]. *)

Inductive pynum :=
  | PyInt (z : Z)
  | PyFloat (q : Q).

Definition to_Q (v : pynum) : Q :=
  match v with
  | PyInt z => inject_Z z
  | PyFloat q => q
  end.

(** [str(z)], [%s] on an int. *)
Definition str_int (z : Z) : string := NilZero.string_of_int (Z.to_int z).

(** The text before the first ['.'] and, when there is one, the text after. *)
Fixpoint split_dot (s : string) : string * option string :=
  match s with
  | EmptyString => (EmptyString, None)
  | String c s' =>
      if Ascii.eqb c "." then (EmptyString, Some s')
      else let '(a, b) := split_dot s' in (String c a, b)
  end.

(** The sign of a literal and the text after it. *)
Definition sign_split (s : string) : bool * string :=
  match s with
  | String "-" s' => (true, s')
  | String "+" s' => (false, s')
  | _ => (false, s)
  end.

(** The value of [digits[.digits]] (one digit at least) with its sign. *)
Definition float_body (neg : bool) (body : string) : res Q :=
  let '(ip, fp) := split_dot body in
  let fp := default EmptyString fp in
  match NilEmpty.uint_of_string ip, NilEmpty.uint_of_string fp with
  | Some di, Some df =>
      if (String.length ip + String.length fp =? 0)%nat then Raise ValueError
      else
        let k := Z.of_nat (String.length fp) in
        let n := Z.of_uint di * 10 ^ k + Z.of_uint df in
        Ok (Qmake (if neg then - n else n) (Z.to_pos (10 ^ k)))
  | _, _ => Raise ValueError
  end.

(** [float(s)] on the decimal literals [[+-]digits[.digits]] (one digit at
    least): the value read is exact.  Exponents, [inf], [nan], underscores
    and surrounding blanks, which Python also reads, are not in the model
    and give [ValueError]. *)
Definition float_of_string (s : string) : res Q :=
  let '(neg, body) := sign_split s in float_body neg body.

(** [int(s)] on [[+-]digits]. *)
Definition int_of_string (s : string) : res Z :=
  let '(neg, body) := sign_split s in
  match NilEmpty.uint_of_string body with
  | Some d =>
      if (String.length body =? 0)%nat then Raise ValueError
      else Ok (if neg then - Z.of_uint d else Z.of_uint d)
  | None => Raise ValueError
  end.

(** [round(x)] of Python 3 on a float: to the nearest integer, ties to the
    even one. *)
Definition py_round (q : Q) : Z :=
  let n := Qnum q in
  let d := Z.pos (Qden q) in
  let f := n / d in
  match (2 * (n mod d)) ?= d with
  | Lt => f
  | Gt => f + 1
  | Eq => if Z.even f then f else f + 1
  end.

(** [int(x)] on a float: truncation towards zero. *)
Definition py_int (q : Q) : Z := Z.quot (Qnum q) (Z.pos (Qden q)).

(** [int(x) == x] on a float. *)
Definition is_integral (q : Q) : bool := Qeq_bool (inject_Z (py_int q)) q.

Definition digit_char (d : Z) : ascii := ascii_of_nat (48 + Z.to_nat d).

(** [n] decimals of the fraction [r / d], for [0 <= r < d]; [stop] ends the
    digits when the remainder is zero. *)
Fixpoint frac_digits (stop : bool) (n : nat) (r d : Z) : string :=
  match n with
  | O => EmptyString
  | S n' =>
      if stop && (r =? 0) then EmptyString
      else String (digit_char (10 * r / d)) (frac_digits stop n' (10 * r mod d) d)
  end.

(** ["%.3f" % x]. *)
Definition fmt3 (q : Q) : string :=
  let m := py_round (q * 1000) in
  (if Qlt_le_dec q 0 then "-" else "")
  +:+ str_int (Z.abs m / 1000) +:+ "." +:+ frac_digits false 3 (Z.abs m mod 1000) 1000.

(** [%s] on a float.  Python prints the shortest decimal that reads back
    as the same double; the model prints the decimal expansion of the
    rational, cut after 17 decimals. *)
Definition str_float (q : Q) : string :=
  let n := Z.abs (Qnum q) in
  let d := Z.pos (Qden q) in
  let frac := frac_digits true 17 (n mod d) d in
  (if Qlt_le_dec q 0 then "-" else "")
  +:+ str_int (n / d) +:+ "." +:+ (if String.eqb frac "" then "0" else frac).

(** [%s] on a number. *)
Definition str_num (v : pynum) : string :=
  match v with
  | PyInt z => str_int z
  | PyFloat q => str_float q
  end.

(** [str(n).zfill(4)]. *)
Definition zfill4 (s : string) : string :=
  String.concat "" (repeat "0" (4 - String.length s)) +:+ s.

Definition str_nat (n : nat) : string := str_int (Z.of_nat n).

(** ** XML elements

    An [xml.etree] element: tag, attribute dictionary, text and children.
    [len(e)], [e[i]], iteration and truth value are those of the list of
    children. *)

Inductive XMLElement :=
  | XML (tag : string) (attrib : gmap string string) (text : option string)
        (children : list XMLElement).

Definition tag (e : XMLElement) : string :=
  match e with XML t _ _ _ => t end.
Definition attrib (e : XMLElement) : gmap string string :=
  match e with XML _ a _ _ => a end.
Definition text (e : XMLElement) : option string :=
  match e with XML _ _ x _ => x end.
Definition children (e : XMLElement) : list XMLElement :=
  match e with XML _ _ _ c => c end.

(** [e.set(key, value)]. *)
Definition set_attr (key value : string) (e : XMLElement) : XMLElement :=
  match e with XML t a x c => XML t (<[key := value]> a) x c end.

(** [e.find(name)]: the first child with that tag. *)
Definition find (name : string) (e : XMLElement) : option XMLElement :=
  List.find (fun c => String.eqb (tag c) name) (children e).

(** The truth value of an element that may be [None]: it has children. *)
Definition truthy (e : option XMLElement) : bool :=
  match e with
  | Some (XML _ _ _ (_ :: _)) => true
  | _ => false
  end.

(** ** [UFOFontData]

    The fields the modelled methods read and write.  [hashFile] is the
    parsed content of the persisted hash map ([None]: no file), [disk] the
    parsed GLIF file at each path that exists, [log] what was logged.
    [glyphMap] is [None] when [contents.plist] names no glyph.  A
    [processedLayerGlyphMap] that is [None] behaves as the empty map in
    every test of the code. *)

Inductive HashVal :=
  | HVersion (major minor : Z)
  | HEntry (srcHash : string) (historyList : list string).

Inductive LogRecord :=
  | LogError (glyphName : string) (required : list string) (tool : string)
  | LogInfo (msg : string).

Record UFOFontData := mkFont {
  parentPath : string;
  glyphMap : option (gmap string string);
  processedLayerGlyphMap : gmap string string;
  useHashMap : bool;
  hashMap : gmap string HashVal;
  hashMapChanged : bool;
  glyphDefaultDir : string;
  glyphLayerDir : string;
  requiredHistory : list string;
  useProcessedLayer : bool;
  deletedGlyph : bool;
  allowDecimalCoords : bool;
  orderMap : gmap string Z;
  hashFile : option (gmap string HashVal);
  disk : gmap string XMLElement;
  log : list LogRecord
}.

Definition set_hashMap (m : gmap string HashVal) (s : UFOFontData) :=
  mkFont (parentPath s) (glyphMap s) (processedLayerGlyphMap s) (useHashMap s)
    m (hashMapChanged s) (glyphDefaultDir s) (glyphLayerDir s)
    (requiredHistory s) (useProcessedLayer s) (deletedGlyph s)
    (allowDecimalCoords s) (orderMap s) (hashFile s) (disk s) (log s).

Definition set_hashMapChanged (b : bool) (s : UFOFontData) :=
  mkFont (parentPath s) (glyphMap s) (processedLayerGlyphMap s) (useHashMap s)
    (hashMap s) b (glyphDefaultDir s) (glyphLayerDir s)
    (requiredHistory s) (useProcessedLayer s) (deletedGlyph s)
    (allowDecimalCoords s) (orderMap s) (hashFile s) (disk s) (log s).

Definition set_deletedGlyph (b : bool) (s : UFOFontData) :=
  mkFont (parentPath s) (glyphMap s) (processedLayerGlyphMap s) (useHashMap s)
    (hashMap s) (hashMapChanged s) (glyphDefaultDir s) (glyphLayerDir s)
    (requiredHistory s) (useProcessedLayer s) b
    (allowDecimalCoords s) (orderMap s) (hashFile s) (disk s) (log s).

Definition set_disk (d : gmap string XMLElement) (s : UFOFontData) :=
  mkFont (parentPath s) (glyphMap s) (processedLayerGlyphMap s) (useHashMap s)
    (hashMap s) (hashMapChanged s) (glyphDefaultDir s) (glyphLayerDir s)
    (requiredHistory s) (useProcessedLayer s) (deletedGlyph s)
    (allowDecimalCoords s) (orderMap s) (hashFile s) d (log s).

Definition add_log (r : LogRecord) (s : UFOFontData) :=
  mkFont (parentPath s) (glyphMap s) (processedLayerGlyphMap s) (useHashMap s)
    (hashMap s) (hashMapChanged s) (glyphDefaultDir s) (glyphLayerDir s)
    (requiredHistory s) (useProcessedLayer s) (deletedGlyph s)
    (allowDecimalCoords s) (orderMap s) (hashFile s) (disk s) (log s ++ [r]).

(** [os.path.join] on two components. *)
Definition path_join (a b : string) : string :=
  if String.prefix "/" b then b
  else if String.eqb a "" then b
  else if String.eqb (String.substring (String.length a - 1) 1 a) "/"
       then a +:+ b
       else a +:+ "/" +:+ b.

(** [os.path.exists]. *)
Definition path_exists (s : UFOFontData) (path : string) : bool :=
  bool_decide (is_Some (disk s !! path)).

(** [self.glyphMap[glyphName]].  [glyphMap] is [None] for a font whose
    [contents.plist] has no entry ([parsePList] returns [None] for an empty
    dictionary): subscripting it raises [TypeError]. *)
Definition glyphFile (s : UFOFontData) (glyphName : string) : res string :=
  match glyphMap s with
  | Some m => getitem m glyphName
  | None => Raise TypeError
  end.

(** [getGlyphDefaultPath]. *)
Definition getGlyphDefaultPath (s : UFOFontData) (glyphName : string)
  : res string :=
  let* glyphFileName := glyphFile s glyphName in
  Ok (path_join (glyphDefaultDir s) glyphFileName).

(** [getGlyphSrcPath].  When the processed file is registered but absent
    from the disk, the registered file name is joined to the default
    directory, as the code does.  The [curSrcDir] it also sets is read by
    nothing modelled here. *)
Definition getGlyphSrcPath (s : UFOFontData) (glyphName : string)
  : res string :=
  let* glyphFileName := glyphFile s glyphName in
  match (if useProcessedLayer s then processedLayerGlyphMap s !! glyphName
         else None) with
  | Some processedName =>
      let glyphPath := path_join (glyphLayerDir s) processedName in
      if path_exists s glyphPath then Ok glyphPath
      else Ok (path_join (glyphDefaultDir s) processedName)
  | None => Ok (path_join (glyphDefaultDir s) glyphFileName)
  end.

(** [getGlyphProcessedPath]: [None] when the glyph has no entry in the
    processed layer. *)
Definition getGlyphProcessedPath (s : UFOFontData) (glyphName : string)
  : option string :=
  match processedLayerGlyphMap s !! glyphName with
  | Some glyphFileName => Some (path_join (glyphLayerDir s) glyphFileName)
  | None => None
  end.

(** A [try] block whose [except KeyError] raises the given error. *)
Definition on_KeyError {A} (m : res A) (handler : res A) : res A :=
  match m with
  | Raise (KeyError _) => handler
  | r => r
  end.

(** The path of a component glyph, as [getComponentOutline] and
    [buildGlyphHashValue] both look it up. *)
Definition componentPath (s : UFOFontData) (useDefault : bool)
    (compGlyphName : string) : res string :=
  if useDefault then
    on_KeyError (getGlyphDefaultPath s compGlyphName)
      (Raise (UFOParseError MissingFromContents))
  else
    on_KeyError
      (let* p := getGlyphSrcPath s compGlyphName in
       if negb (path_exists s p) then getGlyphDefaultPath s compGlyphName
       else Ok p)
      (on_KeyError (getGlyphDefaultPath s compGlyphName)
         (Raise (UFOParseError MissingFromContents))).

(** [getComponentOutline]. *)
Definition getComponentOutline (s : UFOFontData) (componentItem : XMLElement)
  : res (option XMLElement) :=
  let* compGlyphName :=
    on_KeyError (getitem (attrib componentItem) "base")
      (Raise (UFOParseError MissingBase)) in
  let* compGlyphFilePath :=
    componentPath s (negb (useProcessedLayer s)) compGlyphName in
  match disk s !! compGlyphFilePath with
  | None => Raise (UFOParseError ComponentFileMissing)
  | Some glifXML => Ok (find "outline" glifXML)
  end.

(** ** [UFOTransform] *)

Definition kTransformTagList : list string :=
  ["xScale"; "xyScale"; "yxScale"; "yScale"; "xOffset"; "yOffset"].

Record UFOTransform := mkTransform {
  transformFactors : list Q;
  isDefault : bool;
  isOffsetOnly : bool
}.

(** [tf[i]] on the six factors. *)
Definition tf (t : list Q) (i : nat) : Q := nth i t 0%Q.

(** The state of the loop of [__init__]. *)
Record init_acc := mkInit {
  acc_factors : list Q;
  acc_isDefault : bool;
  acc_hasScale : bool;
  acc_hasOffset : bool
}.

(** One turn of the loop over [kTransformTagList]. *)
Definition init_tag (componentXML : XMLElement) (a : init_acc) (tag : string)
  : res init_acc :=
  let val := attrib componentXML !! tag in
  if str_in tag ["xScale"; "yScale"] then
    match val with
    | None =>
        Ok (mkInit (acc_factors a ++ [1%Q]) (acc_isDefault a)
              (acc_hasScale a) (acc_hasOffset a))
    | Some v =>
        let* f := float_of_string v in
        Ok (mkInit (acc_factors a ++ [f]) (acc_isDefault a)
              (if negb (Qeq_bool f 1) then true else acc_hasScale a)
              (acc_hasOffset a))
    end
  else
    match val with
    | None =>
        Ok (mkInit (acc_factors a ++ [0%Q]) (acc_isDefault a)
              (acc_hasScale a) (acc_hasOffset a))
    | Some v =>
        let* f := float_of_string v in
        if negb (Qeq_bool f 0) then
          if str_in tag ["xyScale"; "yxScale"] then
            Ok (mkInit (acc_factors a ++ [f]) false true (acc_hasOffset a))
          else if str_in tag ["xOffset"; "yOffset"] then
            Ok (mkInit (acc_factors a ++ [f]) false (acc_hasScale a) true)
          else Raise (UFOParseError UnknownTag)
        else
          Ok (mkInit (acc_factors a ++ [f]) (acc_isDefault a)
                (acc_hasScale a) (acc_hasOffset a))
    end.

(** [UFOTransform(componentXML)]. *)
Definition UFOTransform_init (componentXML : XMLElement) : res UFOTransform :=
  let* a := foldM (init_tag componentXML) kTransformTagList
              (mkInit [] true false false) in
  Ok (mkTransform (acc_factors a)
        (if acc_hasScale a || acc_hasOffset a then false else acc_isDefault a)
        (if acc_hasScale a then false else true)).

(** [self.concat(transform)]: the value of [self] after the call. *)
Definition concat (self : UFOTransform) (transform : option UFOTransform)
  : UFOTransform :=
  match transform with
  | None => self
  | Some transform =>
      if isDefault transform then self else
      let tfCur := transformFactors self in
      let tfPrev := transformFactors transform in
      if isOffsetOnly transform then
        mkTransform
          (firstn 4 tfCur
           ++ [(tf tfCur 4 + tf tfPrev 4)%Q; (tf tfCur 5 + tf tfPrev 5)%Q]
           ++ skipn 6 tfCur)
          false (isOffsetOnly self)
      else
        mkTransform
          [ tf tfCur 0 * tf tfPrev 0 + tf tfCur 1 * tf tfPrev 2;
            tf tfCur 0 * tf tfPrev 1 + tf tfCur 1 * tf tfPrev 3;
            tf tfCur 2 * tf tfPrev 0 + tf tfCur 3 * tf tfPrev 2;
            tf tfCur 2 * tf tfPrev 1 + tf tfCur 3 * tf tfPrev 3;
            tf tfCur 4 * tf tfPrev 0 + tf tfCur 5 * tf tfPrev 2 + tf tfPrev 4;
            tf tfCur 4 * tf tfPrev 1 + tf tfCur 5 * tf tfPrev 3 + tf tfPrev 5 ]%Q
          false (isOffsetOnly self && isOffsetOnly transform)
  end.

(** [self.apply(x, y)]. *)
Definition apply (self : UFOTransform) (x y : Q) : Q * Q :=
  let tfCur := transformFactors self in
  if isOffsetOnly self then (x + tf tfCur 4, y + tf tfCur 5)%Q
  else (x * tf tfCur 0 + y * tf tfCur 2 + tf tfCur 4,
        x * tf tfCur 1 + y * tf tfCur 3 + tf tfCur 5)%Q.

(** ** The encoder: GLIF outline to bez *)

(** The coordinates of a point as the encoder reads them: [float] of the
    attributes, the transform, and the rounding unless decimals are
    allowed. *)
Definition point_xy (allowDecimals : bool) (transform : option UFOTransform)
    (item : XMLElement) : res (pynum * pynum) :=
  let* xs := getitem (attrib item) "x" in
  let* x := float_of_string xs in
  let* ys := getitem (attrib item) "y" in
  let* y := float_of_string ys in
  let '(x, y) := match transform with
                 | Some t => apply t x y
                 | None => (x, y)
                 end in
  if negb allowDecimals
  then Ok (PyInt (py_round x), PyInt (py_round y))
  else Ok (PyFloat x, PyFloat y).

(** ["%.3f"] when decimals are allowed, ["%s"] otherwise. *)
Definition fmt_num (allowDecimals : bool) (v : pynum) : string :=
  if allowDecimals then fmt3 (to_Q v) else str_num v.

(** An operator line: the arguments, then the operator. *)
Definition op_str (allowDecimals : bool) (args : list pynum) (op : string)
  : string :=
  String.concat " " (map (fmt_num allowDecimals) args ++ [op]).

(** [contourItem.attrib["type"]], ["offcurve"] on [KeyError]. *)
Definition point_type_of (item : XMLElement) : string :=
  default "offcurve" (attrib item !! "type").

(** One turn of the loop over the points of a contour; the state is
    [(argStack, bezStringList)]. *)
Definition emit_point (allowDecimals : bool) (transform : option UFOTransform)
    (st : list pynum * list string) (contourItem : XMLElement)
  : res (list pynum * list string) :=
  let '(argStack, bezStringList) := st in
  if negb (String.eqb (tag contourItem) "point") then Ok st else
  let* xy := point_xy allowDecimals transform contourItem in
  let '(x, y) := xy in
  let point_type := point_type_of contourItem in
  if String.eqb point_type "offcurve" then
    Ok (argStack ++ [x; y], bezStringList)
  else if String.eqb point_type "move" then
    Ok ([], bezStringList ++ [op_str allowDecimals [x; y] "mt"])
  else if String.eqb point_type "line" then
    Ok ([], bezStringList ++ [op_str allowDecimals [x; y] "dt"])
  else if String.eqb point_type "curve" then
    if negb (length argStack =? 4)%nat
    then Raise (UFOParseError ArgumentStackError)
    else Ok ([], bezStringList ++ [op_str allowDecimals (argStack ++ [x; y]) "ct"])
  else if String.eqb point_type "qccurve" then
    Raise (UFOParseError PointTypeNotSupported)
  else Raise (UFOParseError UnknownPointType).

(** The set-up of the move-to of a non-empty contour: the points left to
    iterate over and the operators so far, or [None] for a contour that is
    passed over (a lone [move]). *)
Definition setup_moveto (allowDecimals : bool) (transform : option UFOTransform)
    (outlineItem : list XMLElement) (lastItem : XMLElement)
    (bezStringList : list string)
  : res (option (list XMLElement * list string)) :=
  let point_type := point_type_of lastItem in
  if str_in point_type ["curve"; "line"; "qccurve"] then
    let outlineItem1 := tail outlineItem in
    let outlineItem2 := if negb (String.eqb point_type "line")
                        then outlineItem1 ++ [lastItem] else outlineItem1 in
    let* xy := point_xy allowDecimals transform lastItem in
    let '(x, y) := xy in
    Ok (Some (outlineItem2, bezStringList ++ [op_str allowDecimals [x; y] "mt"]))
  else if String.eqb point_type "move" then
    if (length outlineItem =? 1)%nat then Ok None
    else Ok (Some (outlineItem, bezStringList))
  else if String.eqb point_type "offcurve" then
    let curLastItem := List.last outlineItem lastItem in
    on_KeyError
      (let* lastType := getitem (attrib curLastItem) "type" in
       let* xy := point_xy allowDecimals transform curLastItem in
       let '(x, y) := xy in
       if String.eqb lastType "line" then
         Ok (Some (removelast outlineItem,
                   bezStringList ++ [op_str allowDecimals [x; y] "mt"]))
       else if String.eqb lastType "curve" then
         Ok (Some (outlineItem,
                   bezStringList ++ [op_str allowDecimals [x; y] "mt"]))
       else Ok (Some (outlineItem, bezStringList)))
      (Raise (UFOParseError UnhandledFirstAndLast))
  else Raise (UFOParseError UnhandledFirst).

(** The body of the loop of [convertGlyphOutlineToBezString] for an item
    that is a contour. *)
Definition convertContour (allowDecimals : bool)
    (transform : option UFOTransform) (outlineItem : XMLElement)
    (bezStringList : list string) : res (list string) :=
  match children outlineItem with
  | [] => Ok bezStringList
  | lastItem :: _ =>
      let* r := setup_moveto allowDecimals transform (children outlineItem)
                  lastItem bezStringList in
      match r with
      | None => Ok bezStringList
      | Some (points, bezStringList) =>
          let* st := foldM (emit_point allowDecimals transform) points
                       ([], bezStringList) in
          Ok (snd st ++ ["cp"])
      end
  end.

(** The transform handed to a component: [UFOTransform(outlineItem)]
    concatenated with the current one. *)
Definition componentTransform (outlineItem : XMLElement)
    (transform : option UFOTransform) : res (option UFOTransform) :=
  let* newTransform := UFOTransform_init outlineItem in
  if isDefault newTransform then
    match transform with
    | Some _ => Ok (Some (concat newTransform transform))
    | None => Ok None
    end
  else Ok (Some (concat newTransform transform)).

(** [convertGlyphOutlineToBezString] by recursion on [budget], the number
    of levels left: [level = 11 - budget], so that [budget = 0] is
    [level > 10]. *)
Fixpoint convertOutline (budget : nat) (ufoFontData : UFOFontData)
    (outlineXML : option XMLElement) (transform : option UFOTransform)
  : res string :=
  match budget with
  | O => Raise (UFOParseError ExceededLevels)
  | S budget' =>
      let allowDecimals := allowDecimalCoords ufoFontData in
      match outlineXML with
      | None => Ok ""
      | Some outline =>
          let* bezStringList :=
            foldM (fun bezStringList outlineItem =>
                     if String.eqb (tag outlineItem) "component" then
                       let* newTransform :=
                         componentTransform outlineItem transform in
                       let* componentOutline :=
                         getComponentOutline ufoFontData outlineItem in
                       if truthy componentOutline then
                         let* outlineBezString :=
                           convertOutline budget' ufoFontData componentOutline
                             newTransform in
                         Ok (bezStringList ++ [outlineBezString])
                       else Ok bezStringList
                     else if negb (String.eqb (tag outlineItem) "contour") then
                       Ok bezStringList
                     else
                       convertContour allowDecimals transform outlineItem
                         bezStringList)
                  (children outline) [] in
          Ok (String.concat (String "010" "") bezStringList)
      end
  end.

(** [convertGlyphOutlineToBezString(outlineXML, ufoFontData, transform,
    level)]. *)
Definition convertGlyphOutlineToBezString (outlineXML : option XMLElement)
    (ufoFontData : UFOFontData) (transform : option UFOTransform)
    (level : nat) : res string :=
  convertOutline (11 - level) ufoFontData outlineXML transform.

(** ** The hint serialiser *)

Record HintMask := mkHintMask {
  listPos : nat;
  hList : list (list Q);
  vList : list (list Q);
  hstem3List : list (list (list Q));
  vstem3List : list (list (list Q));
  pointName : string
}.

(** [HintMask(listPos)]. *)
Definition HintMask_init (listPos : nat) : HintMask :=
  mkHintMask listPos [] [] [] [] ("hintSet" +:+ zfill4 (str_nat listPos)).

(** [XMLElement(tag)] with its [text] set. *)
Definition text_element (tag txt : string) : XMLElement :=
  XML tag ∅ (Some txt) [].

(** The comparison [a < b] of two Python lists: the first place where they
    differ decides, a proper prefix is smaller. *)
Fixpoint list_lt {A} (eqb ltb : A -> A -> bool) (a b : list A) : bool :=
  match a, b with
  | [], [] => false
  | [], _ :: _ => true
  | _ :: _, [] => false
  | x :: a', y :: b' => if eqb x y then list_lt eqb ltb a' b' else ltb x y
  end.

Fixpoint list_eqb {A} (eqb : A -> A -> bool) (a b : list A) : bool :=
  match a, b with
  | [], [] => true
  | x :: a', y :: b' => eqb x y && list_eqb eqb a' b'
  | _, _ => false
  end.

Definition Qltb (x y : Q) : bool := negb (Qle_bool y x).

(** [<] on hints (lists of floats) and on stem3 groups (lists of hints). *)
Definition hint_lt : list Q -> list Q -> bool := list_lt Qeq_bool Qltb.
Definition stem3_lt : list (list Q) -> list (list Q) -> bool :=
  list_lt (list_eqb Qeq_bool) hint_lt.

(** [list.sort()]: a stable sort that only uses [<]. *)
Fixpoint sort_insert {A} (ltb : A -> A -> bool) (x : A) (l : list A) : list A :=
  match l with
  | [] => [x]
  | y :: l' => if ltb y x then y :: sort_insert ltb x l' else x :: y :: l'
  end.

Fixpoint list_sort {A} (ltb : A -> A -> bool) (l : list A) : list A :=
  match l with
  | [] => []
  | x :: l' => sort_insert ltb x (list_sort ltb l')
  end.

(** [int((kStackLimit - 2) / 2)]. *)
Definition hintLimit : nat := Z.to_nat ((kStackLimit - 2) / 2).

(** The conversion [if isinstance(pos, float) and int(pos) == pos:
    pos = int(pos)], which is also that of [convertCoords]. *)
Definition show_float (q : Q) : pynum :=
  if is_integral q then PyInt (py_int q) else PyFloat q.

(** [for pos, width in stem3]: each element must have two items. *)
Definition pos_width (hint : list Q) : res string :=
  match hint with
  | [pos; width] =>
      Ok (str_num (show_float pos) +:+ " " +:+ str_num (show_float width))
  | _ => Raise ValueError
  end.

(** [makeStemHintList]: the element appended to [stemList]. *)
Definition makeStemHintList (hintsStem3 : list (list (list Q))) (isH : bool)
  : res (list XMLElement) :=
  let op := if isH then kHStem3Name else kVStem3Name in
  let* posList := foldM (fun posList hint =>
                           let* s := pos_width hint in Ok (posList ++ [s]))
                    (List.concat hintsStem3) [op] in
  Ok [text_element "string" (String.concat " " posList)].

(** [makeHintList]: the elements appended to [newHintSetArray]. *)
Definition makeHintList (hints : list (list Q)) (isH : bool)
  : res (list XMLElement) :=
  foldM (fun out hint =>
           match hint with
           | [] => Ok out
           | [_] => Raise IndexError
           | pos :: width :: _ =>
               let op := if isH then kHStemName else kVStemName in
               Ok (out ++ [text_element "string"
                             (op +:+ " " +:+ str_num (show_float pos)
                                 +:+ " " +:+ str_num (show_float width))])
           end)
        hints [].

(** [addHintList]: the elements appended to [newHintSetArray]. *)
Definition addHintList (hints : list (list Q))
    (hintsStem3 : list (list (list Q))) (isH : bool) : res (list XMLElement) :=
  if (0 <? length hintsStem3)%nat then
    let hintsStem3 := list_sort stem3_lt hintsStem3 in
    let numHints := length hintsStem3 in
    let hintsStem3 := if (hintLimit <=? numHints)%nat
                      then firstn hintLimit hintsStem3 else hintsStem3 in
    makeStemHintList hintsStem3 isH
  else
    let hints := list_sort hint_lt hints in
    let numHints := length hints in
    let hints := if (hintLimit <=? numHints)%nat
                 then firstn hintLimit hints else hints in
    makeHintList hints isH.

(** The [stems] array that [addHintSet] fills. *)
Definition stemsArray (self : HintMask) : res (list XMLElement) :=
  let* h := if (0 <? length (hList self))%nat
               || (0 <? length (vstem3List self))%nat
            then addHintList (hList self) (hstem3List self) true
            else Ok [] in
  let* v := if (0 <? length (vList self))%nat
               || (0 <? length (vstem3List self))%nat
            then addHintList (vList self) (vstem3List self) false
            else Ok [] in
  Ok (h ++ v).

(** [HintMask.addHintSet]: the [dict] appended to [hintSetList]. *)
Definition addHintSet (self : HintMask) : res XMLElement :=
  let* stems := stemsArray self in
  Ok (XML "dict" ∅ None
        [ text_element "key" kPointTag;
          text_element "string" (pointName self);
          text_element "key" "stems";
          XML "array" ∅ None stems ]).

(** [addFlexHint]. *)
Definition addFlexHint (flexList : list string) : list XMLElement :=
  map (text_element "string") flexList.

(** ** The decoder: bez to GLIF outline *)

(** The characters [\s] matches. *)
Definition is_space (c : ascii) : bool :=
  let n := nat_of_ascii c in
  ((9 <=? n) && (n <=? 13) || (28 <=? n) && (n <=? 32)
   || (n =? 133) || (n =? 160))%nat.

Definition newline : ascii := "010".

(** [re.sub(r"%.+?\n", "", s)], computed from the right: the first
    component is the text without its comments, the second the same for the
    text after the first newline, when there is one.  A ['%'] opens a
    comment when one character at least stands between it and the next
    newline. *)
Fixpoint strip_aux (s : string) : string * option string :=
  match s with
  | EmptyString => (EmptyString, None)
  | String c s' =>
      let '(r, nl) := strip_aux s' in
      if Ascii.eqb c newline then (String c r, Some r)
      else if Ascii.eqb c "%" then
        match s', nl with
        | String c' _, Some after =>
            if Ascii.eqb c' newline then (String c r, nl) else (after, nl)
        | _, _ => (String c r, nl)
        end
      else (String c r, nl)
  end.

Definition strip_comments (s : string) : string := fst (strip_aux s).

(** The text begins with a character that is not a blank. *)
Definition starts_token (s : string) : bool :=
  match s with
  | EmptyString => false
  | String c _ => negb (is_space c)
  end.

(** [re.findall(r"(\S+)", s)], computed from the right. *)
Fixpoint findall_S (s : string) : list string :=
  match s with
  | EmptyString => []
  | String c s' =>
      let r := findall_S s' in
      if is_space c then r
      else if starts_token s' then
        match r with
        | t :: r' => String c t :: r'
        | [] => [String c EmptyString]
        end
      else String c EmptyString :: r
  end.

(** The local variables of [convertBezToOutline].  [hintMaskList] is
    [prevMasks ++ [hintMask]]: the current mask is always its last element.
    The children of [newOutline] are [closed] followed by the open contour
    [outlineItem], which is always the last one. *)
Record dstate := mkD {
  flexList : list string;
  prevMasks : list HintMask;
  hintMask : HintMask;
  vStem3Args : list (list Q);
  hStem3Args : list (list Q);
  argList : list Q;
  opList : list (string * Q * Q);
  newHintMaskName : option string;
  inPreFlex : bool;
  opIndex : nat;
  curX : Q;
  curY : Q;
  closed : list XMLElement;
  outlineItem : option (list XMLElement);
  seenHints : bool
}.

Definition init_dstate : dstate :=
  mkD [] [] (HintMask_init 0) [] [] [] [] None false 0 0%Q 0%Q [] None false.

Definition contour_element (points : list XMLElement) : XMLElement :=
  XML "contour" ∅ None points.

(** [XMLElement("point", {"x": "%s" % showX, "y": "%s" % showY, ...})]
    after [convertCoords]. *)
Definition new_point (curX curY : Q) (type : option string) : XMLElement :=
  let a : gmap string string :=
    {[ "x" := str_num (show_float curX); "y" := str_num (show_float curY) ]} in
  XML "point" (match type with
               | Some t => <["type" := t]> a
               | None => a
               end) None [].

(** [l[-n]] on a list and the update of that element. *)
Definition update_from_end {A} (n : nat) (f : A -> A) (l : list A) : list A :=
  let i := (length l - n)%nat in
  firstn i l ++ match skipn i l with
                | x :: r => f x :: r
                | [] => []
                end.

(** [fixStartPoint(outlineItem, opList)]: the points of the contour after
    the call. *)
Definition fixStartPoint (outlineItem : list XMLElement)
    (opList : list (string * Q * Q)) : res (list XMLElement) :=
  match opList, outlineItem with
  | (_, firstX, firstY) :: _, firstPointElement :: rest =>
      let '(lastOp, lastX, lastY) := List.last opList ("", firstX, firstY) in
      if Qeq_bool firstX lastX && Qeq_bool firstY lastY then
        match removelast outlineItem with
        | first :: rest' => Ok (set_attr "type" lastOp first :: rest')
        | [] => Ok []
        end
      else Ok (set_attr "type" "line" firstPointElement :: rest)
  | _, _ => Raise IndexError
  end.

Definition set_hintMask (m : HintMask) (st : dstate) : dstate :=
  mkD (flexList st) (prevMasks st) m (vStem3Args st) (hStem3Args st)
    (argList st) (opList st) (newHintMaskName st) (inPreFlex st) (opIndex st)
    (curX st) (curY st) (closed st) (outlineItem st) (seenHints st).

Definition set_argList (a : list Q) (st : dstate) : dstate :=
  mkD (flexList st) (prevMasks st) (hintMask st) (vStem3Args st)
    (hStem3Args st) a (opList st) (newHintMaskName st) (inPreFlex st)
    (opIndex st) (curX st) (curY st) (closed st) (outlineItem st)
    (seenHints st).

(** The name a hint operator gives to the pending mask when none is. *)
Definition pending_name (st : dstate) : option string :=
  match newHintMaskName st with
  | None => Some (pointName (hintMask st))
  | n => n
  end.

(** [rb] and [ry]. *)
Definition op_stem (isH : bool) (st : dstate) : dstate :=
  let m := hintMask st in
  let m' := if isH
            then mkHintMask (listPos m) (hList m ++ [argList st]) (vList m)
                   (hstem3List m) (vstem3List m) (pointName m)
            else mkHintMask (listPos m) (hList m) (vList m ++ [argList st])
                   (hstem3List m) (vstem3List m) (pointName m) in
  mkD (flexList st) (prevMasks st) m' (vStem3Args st) (hStem3Args st)
    [] (opList st) (pending_name st) (inPreFlex st) (opIndex st)
    (curX st) (curY st) (closed st) (outlineItem st) true.

(** [rm]: the arguments join [vStem3Args]; three of them make a group of
    [vstem3List]. *)
Definition op_rm (st : dstate) : dstate :=
  let m := hintMask st in
  let args := vStem3Args st ++ [argList st] in
  let full := (length args =? 3)%nat in
  let m' := if full
            then mkHintMask (listPos m) (hList m) (vList m) (hstem3List m)
                   (vstem3List m ++ [args]) (pointName m)
            else m in
  mkD (flexList st) (prevMasks st) m' (if full then [] else args)
    (hStem3Args st) [] (opList st) (pending_name st) (inPreFlex st)
    (opIndex st) (curX st) (curY st) (closed st) (outlineItem st) true.

(** [rv]: the same for [hStem3Args] and [hstem3List]; the pending mask name
    is left as it is. *)
Definition op_rv (st : dstate) : dstate :=
  let m := hintMask st in
  let args := hStem3Args st ++ [argList st] in
  let full := (length args =? 3)%nat in
  let m' := if full
            then mkHintMask (listPos m) (hList m) (vList m)
                   (hstem3List m ++ [args]) (vstem3List m) (pointName m)
            else m in
  mkD (flexList st) (prevMasks st) m' (vStem3Args st)
    (if full then [] else args) [] (opList st) (newHintMaskName st)
    (inPreFlex st) (opIndex st) (curX st) (curY st) (closed st)
    (outlineItem st) true.

(** [snc]. *)
Definition op_snc (st : dstate) : dstate :=
  let m := HintMask_init (opIndex st) in
  mkD (flexList st)
    (if (opIndex st =? 0)%nat then [] else prevMasks st ++ [hintMask st]) m
    (vStem3Args st) (hStem3Args st) (argList st) (opList st)
    (Some (pointName m)) (inPreFlex st) (opIndex st) (curX st) (curY st)
    (closed st) (outlineItem st) (seenHints st).

(** [div]. *)
Definition op_div (st : dstate) : res dstate :=
  let n := length (argList st) in
  match rev (argList st) with
  | b :: a :: _ =>
      if Qeq_bool b 0 then Raise ZeroDivisionError
      else Ok (set_argList (firstn (n - 2) (argList st) ++ [(a / b)%Q]) st)
  | _ => Raise IndexError
  end.

(** The three points of a curve read from [args], appended to the open
    contour; the end point is returned with them. *)
Definition append_curve (args : list Q) (outlineItem : option (list XMLElement))
  : res (list XMLElement * Q * Q) :=
  let* x1 := getindex args 0 in
  let* y1 := getindex args 1 in
  match outlineItem with
  | None => Raise AttributeError
  | Some points =>
      let* x2 := getindex args 2 in
      let* y2 := getindex args 3 in
      let* x3 := getindex args 4 in
      let* y3 := getindex args 5 in
      Ok (points ++ [new_point x1 y1 None; new_point x2 y2 None;
                     new_point x3 y3 (Some "curve")], x3, y3)
  end.

(** [flxa]. *)
Definition op_flxa (st : dstate) : res dstate :=
  let flexPointName := kBaseFlexName +:+ zfill4 (str_nat (opIndex st)) in
  let* c1 := append_curve (argList st) (outlineItem st) in
  let '(points1, x1, y1) := c1 in
  let* c2 := append_curve (firstn 6 (skipn 6 (argList st))) (Some points1) in
  let '(points2, x2, y2) := c2 in
  let points := update_from_end 6 (set_attr kPointName flexPointName) points2 in
  let retarget := match newHintMaskName st with Some _ => true | None => false end in
  let m := hintMask st in
  Ok (mkD (flexList st ++ [flexPointName]) (prevMasks st)
        (if retarget
         then mkHintMask (listPos m) (hList m) (vList m) (hstem3List m)
                (vstem3List m) flexPointName
         else m)
        (vStem3Args st) (hStem3Args st) []
        (opList st ++ [("curve", x1, y1); ("curve", x2, y2)])
        None false (opIndex st + 2) x2 y2 (closed st) (Some points)
        (seenHints st)).

(** [bezToUFOPoint]. *)
Definition bezToUFOPoint (token : string) : string :=
  if String.eqb token "mt" then "move"
  else if String.eqb token "rmt" then "move"
  else if String.eqb token "dt" then "line"
  else "curve".

(** [mt], [rmt] and [dt]. *)
Definition op_point (token : string) (st : dstate) : res dstate :=
  let opName := bezToUFOPoint token in
  let* a0 := getindex (argList st) 0 in
  let* a1 := getindex (argList st) 1 in
  let '(curX, curY) := if str_in token ["mt"; "dt"] then (a0, a1)
                       else ((curX st + a0)%Q, (curY st + a1)%Q) in
  let newPoint := new_point curX curY (Some opName) in
  let* moved :=
    if String.eqb opName "move" then
      match outlineItem st with
      | Some points =>
          if (length points =? 1)%nat then Ok (closed st, [], Some [])
          else
            let* fixed := fixStartPoint points (opList st) in
            Ok (closed st ++ [contour_element fixed], [], Some [])
      | None => Ok (closed st, [], Some [])
      end
    else Ok (closed st, opList st, outlineItem st) in
  let '(closed', opList', outlineItem') := moved in
  let newPoint := match newHintMaskName st with
                  | Some n => set_attr kPointName n newPoint
                  | None => newPoint
                  end in
  match outlineItem' with
  | None => Raise AttributeError
  | Some points =>
      Ok (mkD (flexList st) (prevMasks st) (hintMask st) (vStem3Args st)
            (hStem3Args st) [] (opList' ++ [(opName, curX, curY)]) None
            (inPreFlex st) (opIndex st + 1) curX curY closed'
            (Some (points ++ [newPoint])) (seenHints st))
  end.

(** [ct]. *)
Definition op_ct (st : dstate) : res dstate :=
  let* c := append_curve (argList st) (outlineItem st) in
  let '(points, x, y) := c in
  let points := match newHintMaskName st with
                | Some n => update_from_end 3 (set_attr kPointName n) points
                | None => points
                end in
  Ok (mkD (flexList st) (prevMasks st) (hintMask st) (vStem3Args st)
        (hStem3Args st) [] (opList st ++ [("curve", x, y)]) None
        (inPreFlex st) (opIndex st + 1) x y (closed st) (Some points)
        (seenHints st)).

(** One turn of the loop over the tokens. *)
Definition step (st : dstate) (token : string) : res dstate :=
  match float_of_string token with
  | Ok val => Ok (set_argList (argList st ++ [val]) st)
  | Raise _ =>
      if String.eqb token "newcolors" then Ok st
      else if str_in token ["beginsubr"; "endsubr"] then Ok st
      else if String.eqb token "snc" then Ok (op_snc st)
      else if String.eqb token "enc" then Ok st
      else if String.eqb token "div" then op_div st
      else if String.eqb token "rb" then Ok (op_stem true st)
      else if String.eqb token "ry" then Ok (op_stem false st)
      else if String.eqb token "rm" then Ok (op_rm st)
      else if String.eqb token "rv" then Ok (op_rv st)
      else if String.eqb token "preflx1" then
        Ok (mkD (flexList st) (prevMasks st) (hintMask st) (vStem3Args st)
              (hStem3Args st) [] (opList st) (newHintMaskName st) true
              (opIndex st) (curX st) (curY st) (closed st) (outlineItem st)
              (seenHints st))
      else if String.eqb token "preflx2a" then Ok (set_argList [] st)
      else if String.eqb token "flxa" then op_flxa st
      else if String.eqb token "sc" then Ok st
      else if String.eqb token "cp" then Ok st
      else if String.eqb token "ed" then Ok st
      else if inPreFlex st && str_in token ["rmt"; "mt"] then Ok st
      else if str_in token ["rmt"; "mt"; "dt"] then op_point token st
      else if String.eqb token "ct" then op_ct st
      else Raise (BezParseError token)
  end.

(** What [convertBezToOutline] returns: [("", None, None)] for a string
    without tokens, [(newOutline, hintInfoDict)] otherwise. *)
Inductive decoded :=
  | DecodedEmpty
  | Decoded (newOutline : XMLElement) (hintInfoDict : option XMLElement).

(** The children of [newOutline] once the last contour is settled. *)
Definition finish_outline (st : dstate) : res (list XMLElement) :=
  match outlineItem st with
  | Some points =>
      if (length points =? 1)%nat then Ok (closed st)
      else
        let* fixed := fixStartPoint points (opList st) in
        Ok (closed st ++ [contour_element fixed])
  | None => Ok (closed st)
  end.

(** The [dict] of hints, when hints or flex were seen. *)
Definition make_hintInfoDict (st : dstate) : res (option XMLElement) :=
  if seenHints st || (0 <? length (flexList st))%nat then
    let* hintSets := foldM (fun out m => let* d := addHintSet m in Ok (out ++ [d]))
                       (prevMasks st ++ [hintMask st]) [] in
    Ok (Some (XML "dict" ∅ None
                ([ text_element "key" "id";
                   text_element "string" "id";
                   text_element "key" kHintSetListName;
                   XML "array" ∅ None hintSets ]
                 ++ if (0 <? length (flexList st))%nat
                    then [ text_element "key" kFlexIndexListName;
                           XML "array" ∅ None (addFlexHint (flexList st)) ]
                    else [])))
  else Ok None.

(** [convertBezToOutline(ufoFontData, glyphName, bezString)]. *)
Definition convertBezToOutline (ufoFontData : UFOFontData)
    (glyphName bezString : string) : res decoded :=
  let bezList := findall_S (strip_comments bezString) in
  match bezList with
  | [] => Ok DecodedEmpty
  | _ =>
      let* st := foldM step bezList init_dstate in
      let* contours := finish_outline st in
      let* hintInfoDict := make_hintInfoDict st in
      Ok (Decoded (XML "outline" ∅ None contours) hintInfoDict)
  end.

(** ** The content hash builder *)

(** [_represents_integer(value)] followed by [str(int(value))]. *)
Definition normalize_integer (value : string) : string :=
  match int_of_string value with
  | Ok z => str_int z
  | Raise _ => value
  end.

(** The token of a point: the first character of its type, if it has one,
    and the raw coordinates. *)
Definition point_token (child : XMLElement) : res string :=
  let* pointType :=
    match attrib child !! "type" with
    | Some (String c _) => Ok (String c EmptyString)
    | Some EmptyString => Raise IndexError
    | None => Ok EmptyString
    end in
  let* x := getitem (attrib child) "x" in
  let* y := getitem (attrib child) "y" in
  Ok (pointType +:+ x +:+ y).

(** The tokens of a contour: none when it has fewer than two children. *)
Definition contour_tokens (childContour : XMLElement) (dataList : list string)
  : res (list string) :=
  if (length (children childContour) <? 2)%nat then Ok dataList
  else
    foldM (fun dataList child =>
             if String.eqb (tag child) "point" then
               let* t := point_token child in Ok (dataList ++ [t])
             else Ok dataList)
          (children childContour) dataList.

(** The transform fields of a component that are present. *)
Definition transform_tokens (childContour : XMLElement) : list string :=
  flat_map (fun transformTag =>
              match attrib childContour !! transformTag with
              | Some value => [normalize_integer value]
              | None => []
              end)
           ["xScale"; "xyScale"; "yxScale"; "yScale"; "xOffset"; "yOffset"].

Section HashBuilder.

(** [hashlib.sha512(data.encode("utf-8")).hexdigest()]. *)
Variable sha512_hexdigest : string -> string.

(** The [dataList] of [buildGlyphHashValue], by recursion on the number of
    levels left: [level = 11 - budget]. *)
Fixpoint buildDataList (budget : nat) (self : UFOFontData) (width : Z)
    (outlineXML : option XMLElement) (glyphName : string)
    (useDefaultGlyphDir : bool) : res (list string) :=
  let dataList := ["w" +:+ str_int width] in
  match budget with
  | O => Raise (UFOParseError ExceededLevels)
  | S budget' =>
      if truthy outlineXML then
        foldM (fun dataList childContour =>
                 if String.eqb (tag childContour) "contour" then
                   contour_tokens childContour dataList
                 else if String.eqb (tag childContour) "component" then
                   (* the message of the handler has two places for one
                      argument: formatting it raises *)
                   let* compGlyphName :=
                     on_KeyError (getitem (attrib childContour) "base")
                       (Raise TypeError) in
                   let dataList := dataList ++ ["base:" +:+ compGlyphName] in
                   let* componentPath :=
                     componentPath self useDefaultGlyphDir compGlyphName in
                   match disk self !! componentPath with
                   | None => Raise (UFOParseError ComponentFileMissing)
                   | Some componentXML =>
                       let dataList := dataList ++ transform_tokens childContour in
                       let* componentDataList :=
                         buildDataList budget' self width
                           (find "outline" componentXML) glyphName
                           useDefaultGlyphDir in
                       Ok (dataList ++ componentDataList)
                   end
                 else Ok dataList)
              (match outlineXML with
               | Some outline => children outline
               | None => []
               end)
              dataList
      else Ok dataList
  end.

(** [buildGlyphHashValue(width, outlineXML, glyphName, useDefaultGlyphDir,
    level)]. *)
Definition buildGlyphHashValue (self : UFOFontData) (width : Z)
    (outlineXML : option XMLElement) (glyphName : string)
    (useDefaultGlyphDir : bool) (level : nat) : res (string * list string) :=
  let* dataList := buildDataList (11 - level) self width outlineXML glyphName
                     useDefaultGlyphDir in
  let data := String.concat "" dataList in
  if (String.length data <? 128)%nat then Ok (data, dataList)
  else Ok (sha512_hexdigest data, dataList).

End HashBuilder.

(** ** The incremental cache *)

Definition fresh_map : gmap string HashVal :=
  {[ kAdobHashMapVersionName :=
       HVersion (fst kAdobHashMapVersion) (snd kAdobHashMapVersion) ]}.

(** [readHashMap]. *)
Definition readHashMap (s : UFOFontData) : res UFOFontData :=
  let newMap := match hashFile s with
                | Some m => m
                | None => fresh_map
                end in
  match newMap !! kAdobHashMapVersionName with
  | Some (HVersion major _) =>
      if fst kAdobHashMapVersion <? major
      then Raise (UFOParseError HashMapNewer)
      else if major <? fst kAdobHashMapVersion
      then Ok (set_hashMap fresh_map
                 (add_log (LogInfo "Updating hash map: was older version") s))
      else Ok (set_hashMap newMap s)
  | Some (HEntry _ _) =>
      (* version[0] is a string: comparing it with an int raises *)
      Raise TypeError
  | None =>
      Ok (set_hashMap fresh_map
            (add_log (LogInfo "Updating hash map: was older version") s))
  end.

(** The first lines of [checkSkipGlyph]: read the map when it is empty. *)
Definition ensureHashMap (s : UFOFontData) : res UFOFontData :=
  if decide (size (hashMap s) = 0%nat) then readHashMap s else Ok s.

(** [list.index(x)]: the first position of [x], if any. *)
Fixpoint index_of (x : string) (l : list string) : option nat :=
  match l with
  | [] => None
  | y :: l' => if String.eqb y x then Some 0%nat
               else option_map S (index_of x l')
  end.

(** The loop over [self.requiredHistory] computing [foundMatch]. *)
Definition foundMatch (required historyList : list string) : bool :=
  if (0 <? length historyList)%nat
  then existsb (fun programName => str_in programName historyList) required
  else false.

(** [if glyphPath and os.path.exists(glyphPath): os.remove(glyphPath)],
    with [markDeleted] telling whether the branch also sets
    [self.deletedGlyph]. *)
Definition removeProcessed (markDeleted : bool) (glyphName : string)
    (s : UFOFontData) : UFOFontData :=
  match getGlyphProcessedPath s glyphName with
  | Some glyphPath =>
      if negb (String.eqb glyphPath "") && path_exists s glyphPath
      then
        let s' := set_disk (delete glyphPath (disk s)) s in
        if markDeleted then set_deletedGlyph true s' else s'
      else s
  | None => s
  end.

(** [checkSkipGlyph(glyphName, newSrcHash, doAll)]: the returned [skip] and
    the state after the call. *)
Definition checkSkipGlyph (s : UFOFontData) (glyphName newSrcHash : string)
    (doAll : bool) : res (bool * UFOFontData) :=
  if negb (useHashMap s) then Ok (false, s) else
  let* s := ensureHashMap s in
  (* hashEntry = self.hashMap[glyphName]; srcHash, historyList = hashEntry *)
  let* entry := match hashMap s !! glyphName with
                | Some (HEntry srcHash historyList) =>
                    Ok (Some srcHash, historyList,
                        index_of kAutohintName historyList)
                | Some (HVersion _ _) =>
                    (* historyList is an int: it has no [index] *)
                    Raise AttributeError
                | None => Ok (None, [], None)
                end in
  let '(srcHash, historyList, programHistoryIndex) := entry in
  if bool_decide (srcHash = Some newSrcHash) then
    let skip := match programHistoryIndex with
                | Some _ => negb doAll
                | None => false
                end in
    if negb skip then
      if negb (useProcessedLayer s) then
        let s := set_hashMapChanged true s in
        let s := set_hashMap
                   (<[glyphName := HEntry newSrcHash [kAutohintName]]> (hashMap s))
                   s in
        Ok (skip, removeProcessed false glyphName s)
      else
        match programHistoryIndex with
        | None =>
            (* historyList.append: the list is the one stored in the map *)
            Ok (skip,
                set_hashMap
                  (<[glyphName := HEntry newSrcHash (historyList ++ [kAutohintName])]>
                     (hashMap s)) s)
        | Some _ => Ok (skip, s)
        end
    else Ok (skip, s)
  else
    let '(skip, s) :=
      if useProcessedLayer s then
        if foundMatch (requiredHistory s) historyList
        then (true,
              add_log (LogError glyphName (requiredHistory s) kAutohintName) s)
        else (false, s)
      else (false, s) in
    let s := set_hashMapChanged true s in
    let s := set_hashMap
               (<[glyphName := HEntry newSrcHash [kAutohintName]]> (hashMap s)) s in
    Ok (skip, removeProcessed true glyphName s).

(** [getGlyphID]: the handler catches [IndexError] only. *)
Definition getGlyphID (s : UFOFontData) (glyphName : string) : res Z :=
  match getitem (orderMap s) glyphName with
  | Raise IndexError => Raise (UFOParseError GlyphNameNotFound)
  | r => r
  end.

(** ** The callers of the encoder *)


(** * Definitions used by the statements *)

(** The entry [[srcHash, historyList]] stored for a glyph, if any. *)
Definition stored_entry (s : UFOFontData) (glyphName : string)
  : option (string * list string) :=
  match hashMap s !! glyphName with
  | Some (HEntry srcHash historyList) => Some (srcHash, historyList)
  | _ => None
  end.

(** A font on which the methods can be run: no glyph, empty maps, no
    file. *)
Definition empty_font : UFOFontData :=
  mkFont "font.ufo" None ∅ true ∅ false "font.ufo/glyphs"
    "font.ufo/glyphs.com.adobe.type.processedGlyphs" [] false false false
    ∅ None ∅ [].

(** The last line of the cache table: the entry of glyph [a] is
    [(H1, [checkOutlines])], the processed layer is preferred and holds a
    file for [a], and [checkOutlines] is required. *)
Definition edited_font : UFOFontData :=
  mkFont "font.ufo" (Some {[ "a" := "a.glif" ]}) {[ "a" := "a.glif" ]} true
    {[ kAdobHashMapVersionName := HVersion 1 0;
       "a" := HEntry "H1" [kCheckOutlineName] ]}
    false "font.ufo/glyphs" "font.ufo/glyphs.com.adobe.type.processedGlyphs"
    [kCheckOutlineName] true false false {[ "a" := 0 ]} None
    {[ "font.ufo/glyphs.com.adobe.type.processedGlyphs/a.glif" :=
         XML "glyph" ∅ None [] ]}
    [].

(** The 2x2 linear part of a transform is the identity matrix. *)
Definition linear_identity (t : UFOTransform) : Prop :=
  (tf (transformFactors t) 0 == 1 /\ tf (transformFactors t) 1 == 0
   /\ tf (transformFactors t) 2 == 0 /\ tf (transformFactors t) 3 == 1)%Q.

(** The transforms the encoder builds: [UFOTransform(componentXML)], then
    [concat] with a transform built the same way. *)
Inductive reachable : UFOTransform -> Prop :=
  | reach_init componentXML t :
      UFOTransform_init componentXML = Ok t -> reachable t
  | reach_concat self transform :
      reachable self -> reachable transform ->
      reachable (concat self (Some transform)).

(** A [component] element with the given attributes. *)
Definition component_element (a : gmap string string) : XMLElement :=
  XML "component" a None [].

(** A component scaled by 2. *)
Definition doubled : XMLElement :=
  component_element {[ "base" := "a"; "xScale" := "2"; "yScale" := "2" ]}.

(** A component scaled by one half. *)
Definition halved : XMLElement :=
  component_element {[ "base" := "b"; "xScale" := "0.5"; "yScale" := "0.5" ]}.

(** The transform of [halved] inside [doubled]. *)
Definition halved_in_doubled : UFOTransform :=
  match UFOTransform_init halved, UFOTransform_init doubled with
  | Ok t, Ok u => concat t (Some u)
  | _, _ => mkTransform [] true true
  end.

(** A component moved by (10, 20). *)
Definition moved : XMLElement :=
  component_element {[ "base" := "a"; "xOffset" := "10"; "yOffset" := "20" ]}.

(** The value of the transform fields of a tag that is absent, and whether
    the tag belongs to the linear part. *)
Definition tag_default (tag : string) : Q :=
  if str_in tag ["xScale"; "yScale"] then 1%Q else 0%Q.
Definition tag_linear (tag : string) : bool :=
  str_in tag ["xScale"; "xyScale"; "yxScale"; "yScale"].

(** The transform of [moved]. *)
Definition moved_transform : UFOTransform :=
  mkTransform [1; 0; 0; 1; 10; 20]%Q false true.

(** The number of elements of a result, 0 when it is an exception. *)
Definition out_length {A} (r : res (list A)) : nat :=
  match r with
  | Ok l => length l
  | Raise _ => 0%nat
  end.

(** The position of a stem hint [[pos, width]]. *)
Definition hint_pos (hint : list Q) : Q := hd 0%Q hint.

(** The truncation as the specification words it: a stable sort by stem
    position, of which the first [hintLimit] entries are kept. *)
Definition truncate_by_position (hints : list (list Q)) : list (list Q) :=
  firstn hintLimit
    (list_sort (fun a b => Qltb (hint_pos a) (hint_pos b)) hints).

(** Twenty-three stems at position 0, of widths 23 down to 1. *)
Definition stems23 : list (list Q) :=
  map (fun w => [0%Q; inject_Z (Z.of_nat w)]) (rev (seq 1 23)).

(** A mask that holds one horizontal counter group and nothing else, as
    the stream [0 10 rv 20 10 rv 40 10 rv] leaves it. *)
Definition hstem3_mask : HintMask :=
  mkHintMask 0 [] [] [[[0; 10]; [20; 10]; [40; 10]]]%Q [] "hintSet0000".

(** The same group on the vertical axis ([rm] instead of [rv]). *)
Definition vstem3_mask : HintMask :=
  mkHintMask 0 [] [] [] [[[0; 10]; [20; 10]; [40; 10]]]%Q "hintSet0000".

(** A triangle preceded by one horizontal counter group. *)
Definition bez_hstem3 : string :=
  "0 10 rv 20 10 rv 40 10 rv 0 0 mt 10 0 dt 10 10 dt cp".

(** The hint record of a decoded glyph. *)
Definition hintInfoDict_of (r : res decoded) : option XMLElement :=
  match r with
  | Ok (Decoded _ h) => h
  | _ => None
  end.

(** Two neighbours of a sorted list: the second is not smaller than the
    first. *)
Definition ordered {A} (ltb : A -> A -> bool) (a b : A) : Prop :=
  ltb b a = false.

(** A point of a contour: its coordinates as written, and its type when it
    has one. *)
Definition point (x y : string) (type : option string) : XMLElement :=
  XML "point"
    (match type with
     | Some t => {[ "x" := x; "y" := y; "type" := t ]}
     | None => {[ "x" := x; "y" := y ]}
     end) None [].

Definition contour (points : list XMLElement) : XMLElement :=
  XML "contour" ∅ None points.

Definition outline (items : list XMLElement) : XMLElement :=
  XML "outline" ∅ None items.

(** The coordinates and the type of a point, for reading results. *)
Definition point_view (e : XMLElement)
  : option string * option string * option string :=
  (attrib e !! "x", attrib e !! "y", attrib e !! "type").

(** A triangle of three [line] points. *)
Definition triangle : list XMLElement :=
  [ point "0" "0" (Some "line"); point "10" "0" (Some "line");
    point "10" "10" (Some "line") ].

(** The glyphs [g0] ... [g11]: [g11] is the triangle and each other glyph
    is one component, the next glyph. *)
Definition glyph_name (n : nat) : string := "g" +:+ str_nat n.
Definition glyph_file (n : nat) : string := glyph_name n +:+ ".glif".

Definition chain_outline (n : nat) : XMLElement :=
  if (n =? 11)%nat then outline [contour triangle]
  else outline [component_element {[ "base" := glyph_name (S n) ]}].

Definition chain_font : UFOFontData :=
  mkFont "font.ufo"
    (Some (list_to_map (map (fun n => (glyph_name n, glyph_file n)) (seq 0 12))))
    ∅ true ∅ false "font.ufo/glyphs"
    "font.ufo/glyphs.com.adobe.type.processedGlyphs" [] false false false
    ∅ None
    (list_to_map
       (map (fun n => (path_join "font.ufo/glyphs" (glyph_file n),
                       XML "glyph" ∅ None [chain_outline n]))
            (seq 0 12)))
    [].

(** The bez lines of the triangle. *)
Definition triangle_bez : string :=
  String.concat (String newline "") ["0 0 mt"; "10 0 dt"; "10 10 dt"; "cp"].

(** The tokens the hash builder collects along [g1] ... [g11]. *)
Definition chain_tokens : list string :=
  flat_map (fun n => ["w500"; "base:" +:+ glyph_name n]) (seq 2 10)
  ++ ["w500"; "l00"; "l100"; "l1010"].

(** The result is the error of the depth limit. *)
Definition is_depth_error {A} (r : res A) : bool :=
  match r with
  | Raise (UFOParseError ExceededLevels) => true
  | _ => false
  end.

(** The outline has a component among its items. *)
Definition has_component (o : XMLElement) : bool :=
  existsb (fun c => String.eqb (tag c) "component") (children o).

(** The first point of the triangle and the two others. *)
Definition triangle_first : XMLElement := point "0" "0" (Some "line").
Definition triangle_rest : list XMLElement :=
  [ point "10" "0" (Some "line"); point "10" "10" (Some "line") ].

(** A contour that starts with a [curve] point: one curve from (0,0) back
    to (0,0). *)
Definition loop_first : XMLElement := point "0" "0" (Some "curve").
Definition loop_rest : list XMLElement :=
  [ point "10" "0" None; point "10" "10" None ].

(** The coordinate the encoder prints: rounded unless decimals are
    allowed. *)
Definition encoded_coord (allowDecimals : bool) (v : Q) : pynum :=
  if allowDecimals then PyFloat v else PyInt (py_round v).

(** The transform applied to a pair, when there is one. *)
Definition transformed (transform : option UFOTransform) (x y : Q) : Q * Q :=
  match transform with
  | Some t => apply t x y
  | None => (x, y)
  end.

(** A contour whose first point is off-curve and whose last point carries
    the type [offcurve] in full. *)
Definition offcurve_ends : list XMLElement :=
  [ point "1" "2" None; point "5" "6" (Some "line");
    point "3" "4" (Some "offcurve") ].

(** The same contour with the type of the last point left out. *)
Definition offcurve_ends_untyped : list XMLElement :=
  [ point "1" "2" None; point "5" "6" (Some "line"); point "3" "4" None ].

(** A contour whose first point is off-curve and whose last point is a
    [move]. *)
Definition offcurve_then_move : list XMLElement :=
  [ point "1" "2" None; point "3" "4" (Some "move") ].

(** ** The round trip: on-curve points of the source and of the result *)

(** A coordinate of a source point after [float] and [round]. *)
Definition round_attr (a : string) (p : XMLElement) : Z :=
  match attrib p !! a with
  | Some s => match float_of_string s with
              | Ok q => py_round q
              | Raise _ => 0
              end
  | None => 0
  end.











Definition decoded_hints (d : decoded) : option XMLElement :=
  match d with
  | DecodedEmpty => None
  | Decoded _ h => h
  end.

(** ** The structure of the streams the encoder writes *)

(** An operator line of the stream, with its integer arguments. *)
Inductive bop :=
  | Mt (x y : Z)
  | Dt (x y : Z)
  | Ct (a b c d x y : Z)
  | Cp.

(** The line of an operator, as the encoder formats it when decimals are
    not allowed. *)
Definition render (o : bop) : string :=
  match o with
  | Mt x y => op_str false [PyInt x; PyInt y] "mt"
  | Dt x y => op_str false [PyInt x; PyInt y] "dt"
  | Ct a b c d x y =>
      op_str false [PyInt a; PyInt b; PyInt c; PyInt d; PyInt x; PyInt y] "ct"
  | Cp => "cp"
  end.


(** A text without ['%']. *)
Fixpoint no_percent (s : string) : bool :=
  match s with
  | EmptyString => true
  | String c s' => negb (Ascii.eqb c "%") && no_percent s'
  end.




Fixpoint all_chars (f : ascii -> bool) (s : string) : bool :=
  match s with
  | EmptyString => true
  | String c s' => f c && all_chars f s'
  end.

(** ** The decoder on the streams of the encoder *)






(** ** The operator lines of a contour *)



Definition mt_of (p : XMLElement) : bop :=
  Mt (round_attr "x" p) (round_attr "y" p).










(** ** Definitions used by the further properties *)

(** Two pairs of rationals denote the same point. *)
Definition same_point (p q : Q * Q) : Prop :=
  (fst p == fst q /\ snd p == snd q)%Q.

(** The six factors are those of the identity map. *)
Definition affine_identity (t : UFOTransform) : Prop :=
  linear_identity t
  /\ (tf (transformFactors t) 4 == 0 /\ tf (transformFactors t) 5 == 0)%Q.

(** The affine map that six factors denote. *)
Definition affine (t : list Q) (x y : Q) : Q * Q :=
  (x * tf t 0 + y * tf t 2 + tf t 4, x * tf t 1 + y * tf t 3 + tf t 5)%Q.

(** The program is in a history list: the list given, the list with the
    program appended, or the list of the program alone. *)
Ltac solve_history :=
  first [ assumption
        | left; reflexivity
        | apply in_or_app; right; left; reflexivity ].

(** The items of an outline that the hash builder passes over: a contour of
    fewer than two children, and an element that is neither a contour nor a
    component. *)
Definition hash_ignored (item : XMLElement) : bool :=
  if String.eqb (tag item) "contour"
  then (length (children item) <? 2)%nat
  else negb (String.eqb (tag item) "component").

(** The items of an outline that the encoder passes over: an element that is
    neither a contour nor a component, a contour without children, and a
    contour whose only child is a [move]. *)
Definition encode_ignored (item : XMLElement) : bool :=
  if String.eqb (tag item) "component" then false
  else if String.eqb (tag item) "contour" then
    match children item with
    | [] => true
    | [p] => String.eqb (point_type_of p) "move"
    | _ => false
    end
  else true.

(** A component that names the last glyph of [chain_font], the triangle,
    and the transform [__init__] gives it. *)
Definition triangle_component : XMLElement :=
  component_element {[ "base" := "g11" ]}.

Definition default_transform : UFOTransform :=
  mkTransform [1; 0; 0; 1; 0; 0]%Q true true.

(** ** The token stream of the decoder *)

(** The tokens the decoder loops over. *)
Definition bez_tokens (bezString : string) : list string :=
  findall_S (strip_comments bezString).

(** The token reads as a number. *)
Definition is_number (token : string) : bool :=
  match float_of_string token with
  | Ok _ => true
  | Raise _ => false
  end.

(** The operators the decoder has a branch for. *)
Definition known_operators : list string :=
  [ "newcolors"; "beginsubr"; "endsubr"; "snc"; "enc"; "div"; "rb"; "ry";
    "rm"; "rv"; "preflx1"; "preflx2a"; "flxa"; "sc"; "cp"; "ed"; "rmt"; "mt";
    "dt"; "ct" ].

(** The operators whose branch is [pass]. *)
Definition ignored_operators : list string :=
  [ "newcolors"; "beginsubr"; "endsubr"; "enc"; "sc"; "cp"; "ed" ].

(** The operators that set [seenHints] or add to [flexList]. *)
Definition hint_operators : list string :=
  [ "rb"; "ry"; "rm"; "rv"; "flxa" ].

(** The tokens that are left when the ignored operators are taken out. *)
Definition marking (tokens : list string) : list string :=
  List.filter (fun token => negb (str_in token ignored_operators)) tokens.

(** The test that decides whether a hint record is made. *)
Definition hinted (st : dstate) : bool :=
  seenHints st || (0 <? length (flexList st))%nat.

(** The result is an exception. *)
Definition raises {A} (r : res A) : Prop :=
  exists e, r = Raise e.

(** The stream holds a hint operator. *)
Definition has_hint_operator (bezString : string) : bool :=
  existsb (fun token => str_in token hint_operators) (bez_tokens bezString).

(** A letter that no text read by [float] holds: an ASCII letter other
    than those of an exponent, [inf], [infinity] and [nan], in either
    case. *)
Definition foreign_letter (c : ascii) : bool :=
  let n := nat_of_ascii c in
  let l := (if (65 <=? n) && (n <=? 90) then n + 32 else n)%nat in
  ((97 <=? l) && (l <=? 122)
   && negb (existsb (Nat.eqb l) [97; 101; 102; 105; 110; 116; 121]))%nat.

Definition has_foreign_letter (s : string) : bool :=
  negb (all_chars (fun c => negb (foreign_letter c)) s).

(** A character of the decimal literals that [float_of_string] reads. *)
Definition float_char (c : ascii) : bool :=
  let n := nat_of_ascii c in
  ((48 <=? n) && (n <=? 57) || (n =? 43) || (n =? 45) || (n =? 46))%nat.

(** The stream holds a token that cannot be a number, for a letter in it,
    and that is not an operator of the decoder. *)
Definition has_unknown_token (bezString : string) : bool :=
  existsb (fun token => has_foreign_letter token
                        && negb (str_in token known_operators))
          (bez_tokens bezString).

(** A glyph program as [convertGLIFToBez] returns it: a comment line with
    the glyph name, [sc], the text of the outline, [ed]. *)
Definition glyph_program (glyphName bezString : string) : string :=
  String.concat (String newline "")
    ["% " +:+ glyphName; "sc"; bezString; "ed"; ""].

(** A text without newline. *)
Definition one_line (s : string) : bool :=
  all_chars (fun c => negb (Ascii.eqb c newline)) s.

(** ** The round trip *)





(** A component whose scale is not a number. *)
Definition bad_scale : XMLElement :=
  component_element {[ "base" := "a"; "xScale" := "abc" ]}.

(** A component that names no glyph. *)
Definition nameless : XMLElement := component_element ∅.

(** ** Nesting of components *)

(** The turn of the loop of the encoder over one item of an outline, with
    [budget'] levels left for the components. *)
Definition outline_item (budget' : nat) (ufoFontData : UFOFontData)
    (transform : option UFOTransform) (bezStringList : list string)
    (outlineItem : XMLElement) : res (list string) :=
  if String.eqb (tag outlineItem) "component" then
    let* newTransform := componentTransform outlineItem transform in
    let* componentOutline := getComponentOutline ufoFontData outlineItem in
    if truthy componentOutline then
      let* outlineBezString :=
        convertOutline budget' ufoFontData componentOutline newTransform in
      Ok (bezStringList ++ [outlineBezString])
    else Ok bezStringList
  else if negb (String.eqb (tag outlineItem) "contour") then Ok bezStringList
  else convertContour (allowDecimalCoords ufoFontData) transform outlineItem
         bezStringList.

(** The same for the hash builder. *)
Definition hash_item (budget' : nat) (self : UFOFontData) (width : Z)
    (glyphName : string) (useDefaultGlyphDir : bool) (dataList : list string)
    (childContour : XMLElement) : res (list string) :=
  if String.eqb (tag childContour) "contour" then
    contour_tokens childContour dataList
  else if String.eqb (tag childContour) "component" then
    let* compGlyphName :=
      on_KeyError (getitem (attrib childContour) "base") (Raise TypeError) in
    let dataList := dataList ++ ["base:" +:+ compGlyphName] in
    let* componentPath := componentPath self useDefaultGlyphDir compGlyphName in
    match disk self !! componentPath with
    | None => Raise (UFOParseError ComponentFileMissing)
    | Some componentXML =>
        let dataList := dataList ++ transform_tokens childContour in
        let* componentDataList :=
          buildDataList budget' self width (find "outline" componentXML)
            glyphName useDefaultGlyphDir in
        Ok (dataList ++ componentDataList)
    end
  else Ok dataList.

(** The encoder descends from [o] into [inner]: a component of [o] names
    a glyph whose outline is [inner], and [inner] has children. *)
Definition enc_child (font : UFOFontData) (o inner : XMLElement) : Prop :=
  exists item,
    In item (children o)
    /\ tag item = "component"
    /\ getComponentOutline font item = Ok (Some inner)
    /\ truthy (Some inner) = true.

(** [n] component references are nested below the outline [o]. *)
Inductive enc_nested (font : UFOFontData) : XMLElement -> nat -> Prop :=
  | enc_nested_O o : enc_nested font o 0
  | enc_nested_S o inner n :
      enc_child font o inner -> enc_nested font inner n ->
      enc_nested font o (S n).

(** The hash builder descends from [o] into [inner]: [o] has children, one
    of them is a component with a [base] whose file exists, and [inner] is
    the outline of that file, which may be absent. *)
Definition hash_child (font : UFOFontData) (useDefaultGlyphDir : bool)
    (o : XMLElement) (inner : option XMLElement) : Prop :=
  truthy (Some o) = true
  /\ exists item compGlyphName path componentXML,
       In item (children o)
       /\ tag item = "component"
       /\ attrib item !! "base" = Some compGlyphName
       /\ componentPath font useDefaultGlyphDir compGlyphName = Ok path
       /\ disk font !! path = Some componentXML
       /\ inner = find "outline" componentXML.

Inductive hash_nested (font : UFOFontData) (useDefaultGlyphDir : bool)
  : option XMLElement -> nat -> Prop :=
  | hash_nested_O o : hash_nested font useDefaultGlyphDir o 0
  | hash_nested_S o inner n :
      hash_child font useDefaultGlyphDir o inner ->
      hash_nested font useDefaultGlyphDir inner n ->
      hash_nested font useDefaultGlyphDir (Some o) (S n).

(** [n] component references are nested below [o], each the first item of
    its outline and each with a transform that can be built: nothing is
    done before the descent. *)
Inductive enc_spine (font : UFOFontData)
  : option UFOTransform -> XMLElement -> nat -> Prop :=
  | enc_spine_O transform o : enc_spine font transform o 0
  | enc_spine_S transform o item rest newTransform inner n :
      children o = item :: rest ->
      tag item = "component" ->
      componentTransform item transform = Ok newTransform ->
      getComponentOutline font item = Ok (Some inner) ->
      truthy (Some inner) = true ->
      enc_spine font newTransform inner n ->
      enc_spine font transform o (S n).

Inductive hash_spine (font : UFOFontData) (useDefaultGlyphDir : bool)
  : option XMLElement -> nat -> Prop :=
  | hash_spine_O o : hash_spine font useDefaultGlyphDir o 0
  | hash_spine_S o item rest compGlyphName path componentXML n :
      children o = item :: rest ->
      tag item = "component" ->
      attrib item !! "base" = Some compGlyphName ->
      componentPath font useDefaultGlyphDir compGlyphName = Ok path ->
      disk font !! path = Some componentXML ->
      hash_spine font useDefaultGlyphDir (find "outline" componentXML) n ->
      hash_spine font useDefaultGlyphDir (Some o) (S n).

(** ** Counter groups *)

(** The counter group of three stems of width 10 at [100 i], [100 i + 20]
    and [100 i + 40], and the first [n] of these groups. *)
Definition counter_group (i : nat) : list (list Q) :=
  let p := inject_Z (100 * Z.of_nat i) in
  [[p; 10]; [p + 20; 10]; [p + 40; 10]]%Q.

Definition counter_groups (n : nat) : list (list (list Q)) :=
  map counter_group (seq 0 n).

(** The numbers written in a serialisation: the tokens of the texts of its
    elements, the operator names apart. *)
Definition written_numbers (r : res (list XMLElement)) : nat :=
  match r with
  | Ok l =>
      list_sum
        (map (fun e => (length (findall_S (default "" (text e))) - 1)%nat) l)
  | Raise _ => 0%nat
  end.

(** ** The round trip on the coordinates as they are written *)













(** * The incremental cache: [checkSkipGlyph] and [getGlyphID] *)

Lemma readHashMap_fields s s0 :
  readHashMap s = Ok s0 ->
  useProcessedLayer s0 = useProcessedLayer s
  /\ requiredHistory s0 = requiredHistory s
  /\ processedLayerGlyphMap s0 = processedLayerGlyphMap s
  /\ glyphLayerDir s0 = glyphLayerDir s
  /\ disk s0 = disk s
  /\ useHashMap s0 = useHashMap s.
Proof.
  unfold readHashMap. intros H.
  destruct (_ !! kAdobHashMapVersionName) as [[major minor| h l]|];
    try discriminate.
  - destruct (_ <? major); [discriminate|].
    destruct (major <? _); inversion H; subst; simpl; auto 10.
  - inversion H; subst; simpl; auto 10.
Qed.

Lemma ensureHashMap_fields s s0 :
  ensureHashMap s = Ok s0 ->
  useProcessedLayer s0 = useProcessedLayer s
  /\ requiredHistory s0 = requiredHistory s
  /\ processedLayerGlyphMap s0 = processedLayerGlyphMap s
  /\ glyphLayerDir s0 = glyphLayerDir s
  /\ disk s0 = disk s
  /\ useHashMap s0 = useHashMap s.
Proof.
  unfold ensureHashMap. destruct (decide _).
  - apply readHashMap_fields.
  - intros H; inversion H; subst; auto 10.
Qed.

(** A map that holds an entry is not read again. *)
Lemma ensureHashMap_nonempty s glyphName v :
  hashMap s !! glyphName = Some v -> ensureHashMap s = Ok s.
Proof.
  intros H. unfold ensureHashMap. destruct (decide _) as [E|]; [|reflexivity].
  apply map_size_empty_iff in E. rewrite E in H. rewrite lookup_empty in H.
  discriminate.
Qed.

Lemma index_of_head x l : index_of x (x :: l) = Some 0%nat.
Proof. simpl. rewrite String.eqb_refl. reflexivity. Qed.

Lemma str_in_spec x l : str_in x l = true <-> In x l.
Proof.
  unfold str_in. rewrite existsb_exists. split.
  - intros (y & Hy & E). apply String.eqb_eq in E. subst. exact Hy.
  - intros H. exists x. split; [exact H | apply String.eqb_refl].
Qed.

Lemma foundMatch_spec required historyList :
  foundMatch required historyList = true
  <-> exists programName, In programName required /\ In programName historyList.
Proof.
  unfold foundMatch. split.
  - destruct (0 <? length historyList)%nat; [|discriminate].
    rewrite existsb_exists. intros (p & Hp & E). exists p.
    split; [exact Hp | apply str_in_spec; exact E].
  - intros (p & Hp & Hh).
    destruct historyList as [|y l]; [destruct Hh|]. simpl Nat.ltb. cbv iota.
    apply existsb_exists. exists p. split; [exact Hp | apply str_in_spec; exact Hh].
Qed.

(** What [removeProcessed] does to an existing processed file. *)
Lemma removeProcessed_deletes glyphName s path :
  getGlyphProcessedPath s glyphName = Some path ->
  path <> "" ->
  is_Some (disk s !! path) ->
  disk (removeProcessed true glyphName s) !! path = None
  /\ deletedGlyph (removeProcessed true glyphName s) = true.
Proof.
  intros Hp Hne Hex. unfold removeProcessed. rewrite Hp.
  assert (String.eqb path "" = false) as -> by (apply String.eqb_neq; exact Hne).
  unfold path_exists. rewrite bool_decide_eq_true_2 by exact Hex. simpl.
  split; [apply lookup_delete_eq | reflexivity].
Qed.

Lemma removeProcessed_hashMap b glyphName s :
  hashMap (removeProcessed b glyphName s) = hashMap s.
Proof.
  unfold removeProcessed. destruct (getGlyphProcessedPath s glyphName); [|reflexivity].
  destruct (_ && _); [|reflexivity]. destruct b; reflexivity.
Qed.

Lemma removeProcessed_log b glyphName s :
  log (removeProcessed b glyphName s) = log s.
Proof.
  unfold removeProcessed. destruct (getGlyphProcessedPath s glyphName); [|reflexivity].
  destruct (_ && _); [|reflexivity]. destruct b; reflexivity.
Qed.

(** The branch of [checkSkipGlyph] for a stored hash that differs, once the
    map is read. *)
Lemma checkSkipGlyph_changed s s0 glyphName newSrcHash doAll srcHash historyList :
  useHashMap s = true ->
  ensureHashMap s = Ok s0 ->
  hashMap s0 !! glyphName = Some (HEntry srcHash historyList) ->
  srcHash <> newSrcHash ->
  checkSkipGlyph s glyphName newSrcHash doAll =
  let '(skip, s1) :=
    if useProcessedLayer s0 then
      if foundMatch (requiredHistory s0) historyList
      then (true, add_log (LogError glyphName (requiredHistory s0) kAutohintName) s0)
      else (false, s0)
    else (false, s0) in
  Ok (skip,
      removeProcessed true glyphName
        (set_hashMap (<[glyphName := HEntry newSrcHash [kAutohintName]]> (hashMap s1))
           (set_hashMapChanged true s1))).
Proof.
  intros Hu He Hm Hne. unfold checkSkipGlyph. rewrite Hu. simpl negb. cbv iota.
  rewrite He. simpl bind. rewrite Hm. simpl bind.
  rewrite bool_decide_eq_false_2 by congruence.
  destruct (useProcessedLayer s0); [destruct (foundMatch _ _)|]; reflexivity.
Qed.

(** C2. In [checkSkipGlyph], when the stored hash differs from the new
    source hash and the processed layer is in use: if a tool of the
    required-tools list is in the stored history, an error naming the
    required tools is logged and [skip = true] is returned; whatever the
    outcome of that test, the entry becomes [(newHash, [autohint])] and an
    existing processed-layer file of the glyph is deleted, with
    [deletedGlyph] set. *)
Theorem checkSkipGlyph_changed_processed
    (s s0 : UFOFontData) (glyphName newSrcHash : string) (doAll : bool)
    (srcHash : string) (historyList : list string) :
  useHashMap s = true ->
  useProcessedLayer s = true ->
  ensureHashMap s = Ok s0 ->
  hashMap s0 !! glyphName = Some (HEntry srcHash historyList) ->
  srcHash <> newSrcHash ->
  exists skip s1,
    checkSkipGlyph s glyphName newSrcHash doAll = Ok (skip, s1)
    /\ ((exists programName, In programName (requiredHistory s)
                             /\ In programName historyList) ->
        skip = true
        /\ log s1 = log s0 ++ [LogError glyphName (requiredHistory s) kAutohintName])
    /\ hashMap s1 !! glyphName = Some (HEntry newSrcHash [kAutohintName])
    /\ (forall path, getGlyphProcessedPath s glyphName = Some path ->
                     path <> "" -> is_Some (disk s !! path) ->
                     disk s1 !! path = None /\ deletedGlyph s1 = true).
Proof.
  intros Hu Hp He Hm Hne.
  destruct (ensureHashMap_fields _ _ He) as (Fp & Fr & Fm & Fd & Fk & _).
  rewrite (checkSkipGlyph_changed s s0 glyphName newSrcHash doAll srcHash
             historyList Hu He Hm Hne).
  rewrite Fp, Hp, Fr.
  destruct (foundMatch (requiredHistory s) historyList) eqn:Hf.
  - eexists _, _. split; [reflexivity|]. split; [|split].
    + intros _. split; [reflexivity|]. rewrite removeProcessed_log. reflexivity.
    + rewrite removeProcessed_hashMap. simpl. apply lookup_insert_eq.
    + intros path Hpath Hne' Hex. apply removeProcessed_deletes; auto.
      * unfold getGlyphProcessedPath in *. simpl. rewrite Fm, Fd. exact Hpath.
      * simpl. rewrite Fk. exact Hex.
  - eexists _, _. split; [reflexivity|]. split; [|split].
    + intros Hex. apply foundMatch_spec in Hex. congruence.
    + rewrite removeProcessed_hashMap. simpl. apply lookup_insert_eq.
    + intros path Hpath Hne' Hex. apply removeProcessed_deletes; auto.
      * unfold getGlyphProcessedPath in *. simpl. rewrite Fm, Fd. exact Hpath.
      * simpl. rewrite Fk. exact Hex.
Qed.

Lemma checkSkipGlyph_changed_processed_witness :
  useHashMap edited_font = true
  /\ useProcessedLayer edited_font = true
  /\ ensureHashMap edited_font = Ok edited_font
  /\ hashMap edited_font !! "a" = Some (HEntry "H1" [kCheckOutlineName])
  /\ "H1" <> "H2"
  /\ exists skip s1,
      checkSkipGlyph edited_font "a" "H2" false = Ok (skip, s1)
      /\ ((exists programName, In programName (requiredHistory edited_font)
                               /\ In programName [kCheckOutlineName]) ->
          skip = true
          /\ log s1 = log edited_font
                      ++ [LogError "a" (requiredHistory edited_font) kAutohintName])
      /\ hashMap s1 !! "a" = Some (HEntry "H2" [kAutohintName])
      /\ (forall path, getGlyphProcessedPath edited_font "a" = Some path ->
                       path <> "" -> is_Some (disk edited_font !! path) ->
                       disk s1 !! path = None /\ deletedGlyph s1 = true).
Proof.
  split; [reflexivity|]. split; [reflexivity|]. split; [reflexivity|].
  split; [reflexivity|]. split; [discriminate|].
  apply (checkSkipGlyph_changed_processed edited_font edited_font "a" "H2" false
           "H1" [kCheckOutlineName]);
    [reflexivity | reflexivity | reflexivity | reflexivity | discriminate].
Defined.

(** C7. With the hash map enabled and [doAll = false], a first call of
    [checkSkipGlyph] for a glyph that has no entry returns [skip = false]
    and records [(hash, [autohint])]; a second call with the same hash
    returns [skip = true]. *)
Theorem checkSkipGlyph_twice
    (s s0 : UFOFontData) (glyphName newSrcHash : string) :
  useHashMap s = true ->
  ensureHashMap s = Ok s0 ->
  hashMap s0 !! glyphName = None ->
  exists s1,
    checkSkipGlyph s glyphName newSrcHash false = Ok (false, s1)
    /\ hashMap s1 !! glyphName = Some (HEntry newSrcHash [kAutohintName])
    /\ checkSkipGlyph s1 glyphName newSrcHash false = Ok (true, s1).
Proof.
  intros Hu He Hm.
  destruct (ensureHashMap_fields _ _ He) as (_ & _ & _ & _ & _ & Fu).
  unfold checkSkipGlyph at 1. rewrite Hu. simpl negb. cbv iota.
  rewrite He. simpl bind. rewrite Hm. simpl.
  replace (if useProcessedLayer s0 then (false, s0) else (false, s0))
    with (false, s0) by (destruct (useProcessedLayer s0); reflexivity).
  set (t := set_hashMap _ (set_hashMapChanged true s0)).
  assert (Mt : hashMap t !! glyphName = Some (HEntry newSrcHash [kAutohintName]))
    by apply lookup_insert_eq.
  assert (Ut : useHashMap t = true) by (simpl; congruence).
  set (s1 := removeProcessed true glyphName t).
  assert (Hm1 : hashMap s1 !! glyphName = Some (HEntry newSrcHash [kAutohintName])).
  { subst s1. rewrite removeProcessed_hashMap. exact Mt. }
  assert (Hu1 : useHashMap s1 = true).
  { subst s1. unfold removeProcessed.
    destruct (getGlyphProcessedPath t glyphName); [|exact Ut].
    destruct (_ && _); exact Ut. }
  exists s1. split; [reflexivity|]. split; [exact Hm1|].
  unfold checkSkipGlyph. rewrite Hu1. simpl negb. cbv iota.
  rewrite (ensureHashMap_nonempty _ _ _ Hm1). simpl bind. rewrite Hm1.
  simpl bind. rewrite bool_decide_eq_true_2 by reflexivity.
  reflexivity.
Qed.

Lemma checkSkipGlyph_twice_witness :
  useHashMap empty_font = true
  /\ ensureHashMap empty_font = Ok (set_hashMap fresh_map empty_font)
  /\ hashMap (set_hashMap fresh_map empty_font) !! "a" = None
  /\ exists s1,
      checkSkipGlyph empty_font "a" "H" false = Ok (false, s1)
      /\ hashMap s1 !! "a" = Some (HEntry "H" [kAutohintName])
      /\ checkSkipGlyph s1 "a" "H" false = Ok (true, s1).
Proof.
  split; [reflexivity|]. split; [reflexivity|]. split; [reflexivity|].
  apply (checkSkipGlyph_twice empty_font (set_hashMap fresh_map empty_font)
           "a" "H"); reflexivity.
Defined.

(** C10. For a glyph name that is not in the glyph-order map, [getGlyphID]
    raises the [KeyError] of the dictionary lookup; the handler of
    [IndexError] is never entered, so the [UFOParseError] it would raise is
    never the outcome. *)
Theorem getGlyphID_missing (s : UFOFontData) (glyphName : string) :
  orderMap s !! glyphName = None ->
  getGlyphID s glyphName = Raise (KeyError glyphName)
  /\ forall s' glyphName' e, getGlyphID s' glyphName' <> Raise (UFOParseError e).
Proof.
  intros H. split.
  - unfold getGlyphID, getitem. rewrite H. reflexivity.
  - intros s' g e. unfold getGlyphID, getitem.
    destruct (orderMap s' !! g); discriminate.
Qed.

Lemma getGlyphID_missing_witness :
  orderMap edited_font !! "b" = None
  /\ getGlyphID edited_font "b" = Raise (KeyError "b")
  /\ forall s' glyphName' e, getGlyphID s' glyphName' <> Raise (UFOParseError e).
Proof.
  split; [reflexivity|].
  apply (getGlyphID_missing edited_font "b"). reflexivity.
Defined.

(** * [UFOTransform]: the flag [isOffsetOnly] *)

(** One turn of the loop of [__init__] appends one factor and raises
    [hasScale] exactly when a factor of the linear part is not the
    default. *)
Lemma init_tag_spec componentXML a tag a' :
  In tag kTransformTagList ->
  init_tag componentXML a tag = Ok a' ->
  exists f,
    acc_factors a' = acc_factors a ++ [f]
    /\ acc_hasScale a'
       = (acc_hasScale a || tag_linear tag && negb (Qeq_bool f (tag_default tag))).
Proof.
  intros Hin H. unfold init_tag in H.
  assert (Hcases : tag = "xScale" \/ tag = "xyScale" \/ tag = "yxScale"
                   \/ tag = "yScale" \/ tag = "xOffset" \/ tag = "yOffset").
  { simpl in Hin. intuition auto. }
  destruct (attrib componentXML !! tag) as [v|].
  - destruct Hcases as [-> | [-> | [-> | [-> | [-> | ->]]]]]; simpl in H;
      destruct (float_of_string v) as [f|]; try discriminate; simpl in H.
    all: destruct (Qeq_bool f _) eqn:E; simpl in H; inversion H; subst; clear H.
    all: exists f; simpl; unfold tag_linear, tag_default; simpl; rewrite ?E.
    all: split; [reflexivity | destruct (acc_hasScale a); reflexivity].
  - destruct Hcases as [-> | [-> | [-> | [-> | [-> | ->]]]]]; simpl in H;
      inversion H; subst; clear H; eexists; simpl.
    all: split; [reflexivity | destruct (acc_hasScale a); reflexivity].
Qed.

(** After [__init__] there are six factors and the flag tells whether the
    linear part is the identity. *)
Lemma UFOTransform_init_spec componentXML t :
  UFOTransform_init componentXML = Ok t ->
  length (transformFactors t) = 6%nat
  /\ (isOffsetOnly t = true <-> linear_identity t).
Proof.
  unfold UFOTransform_init, kTransformTagList. simpl foldM.
  intros H.
  repeat match type of H with
  | bind (bind (init_tag ?x ?a ?tag) _) _ = _ =>
      let a' := fresh "a" in
      let E := fresh "E" in
      destruct (init_tag x a tag) as [a'|] eqn:E; [|discriminate];
      apply init_tag_spec in E; [|unfold kTransformTagList; simpl; tauto];
      simpl bind at 2 in H
  end.
  simpl in H. inversion H; subst; clear H. simpl.
  destruct E as (f0 & F0 & S0). destruct E0 as (f1 & F1 & S1).
  destruct E1 as (f2 & F2 & S2). destruct E2 as (f3 & F3 & S3).
  destruct E3 as (f4 & F4 & S4). destruct E4 as (f5 & F5 & S5).
  simpl in F0, S0.
  unfold linear_identity, tf. simpl transformFactors.
  rewrite F5, F4, F3, F2, F1, F0. simpl.
  split; [reflexivity|].
  rewrite S5, S4, S3, S2, S1, S0. unfold tag_linear, tag_default. simpl.
  rewrite !orb_false_r.
  rewrite <- !Qeq_bool_iff.
  destruct (Qeq_bool f0 1), (Qeq_bool f1 0), (Qeq_bool f2 0), (Qeq_bool f3 1);
    simpl; split; intros; intuition congruence.
Qed.

Lemma tf_firstn4 (l r : list Q) i :
  (i < 4)%nat -> (4 <= length l)%nat -> tf (firstn 4 l ++ r) i = tf l i.
Proof.
  intros Hi Hl. unfold tf.
  rewrite app_nth1 by (rewrite length_firstn; lia).
  rewrite nth_firstn. apply Nat.ltb_lt in Hi. rewrite Hi. reflexivity.
Qed.

(** The invariant of the transforms the encoder builds. *)
Lemma reachable_inv t :
  reachable t ->
  length (transformFactors t) = 6%nat
  /\ (isOffsetOnly t = true -> linear_identity t).
Proof.
  induction 1 as [x t H | self transform Hs [Ls Is] Ht [Lt It]].
  - destruct (UFOTransform_init_spec _ _ H) as [L I]. split; [exact L | apply I].
  - unfold concat. destruct (isDefault transform); [auto|].
    destruct (isOffsetOnly transform) eqn:Eo.
    + cbn [transformFactors isOffsetOnly]. split.
      * rewrite !length_app, length_firstn, length_skipn, Ls. reflexivity.
      * intros Hf. specialize (Is Hf). unfold linear_identity in *.
        cbn [transformFactors].
        rewrite !tf_firstn4 by lia. exact Is.
    + cbn [transformFactors isOffsetOnly]. split; [reflexivity|].
      rewrite andb_false_r. discriminate.
Qed.

Lemma halved_in_doubled_reachable : reachable halved_in_doubled.
Proof.
  unfold halved_in_doubled.
  destruct (UFOTransform_init halved) as [t|] eqn:E1;
    [|vm_compute in E1; discriminate].
  destruct (UFOTransform_init doubled) as [u|] eqn:E2;
    [|vm_compute in E2; discriminate].
  apply reach_concat; eapply reach_init; eassumption.
Qed.

(** C9, as stated, fails: a component scaled by one half inside a component
    scaled by 2 has the identity as linear part, and its flag
    [isOffsetOnly] is false. *)
Lemma isOffsetOnly_iff_identity_counterexample :
  reachable halved_in_doubled
  /\ ~ (isOffsetOnly halved_in_doubled = true
        <-> linear_identity halved_in_doubled).
Proof.
  split; [exact halved_in_doubled_reachable|].
  intros [_ H].
  assert (L : linear_identity halved_in_doubled)
    by (repeat split; vm_compute; reflexivity).
  specialize (H L). vm_compute in H. discriminate.
Qed.

(** C9, amended. For every transform built from component attributes and
    then composed by [concat], [isOffsetOnly] true implies that the linear
    part is the identity; for a transform just built from attributes the
    converse holds as well. *)
Theorem isOffsetOnly_linear_identity (t : UFOTransform) :
  reachable t ->
  (isOffsetOnly t = true -> linear_identity t)
  /\ (forall componentXML,
        UFOTransform_init componentXML = Ok t ->
        linear_identity t -> isOffsetOnly t = true).
Proof.
  intros R. split.
  - apply (reachable_inv t R).
  - intros x H. apply (UFOTransform_init_spec x t H).
Qed.

Lemma isOffsetOnly_linear_identity_witness :
  reachable moved_transform
  /\ (isOffsetOnly moved_transform = true -> linear_identity moved_transform)
  /\ (forall componentXML,
        UFOTransform_init componentXML = Ok moved_transform ->
        linear_identity moved_transform -> isOffsetOnly moved_transform = true).
Proof.
  assert (R : reachable moved_transform)
    by (apply (reach_init moved); vm_compute; reflexivity).
  split; [exact R|].
  apply (isOffsetOnly_linear_identity moved_transform R).
Defined.

(** * The hint serialiser: [addHintSet] and [addHintList] *)

Section Sorting.

Context {A : Type} (ltb : A -> A -> bool).

Lemma sort_insert_perm x l : Permutation (sort_insert ltb x l) (x :: l).
Proof.
  induction l as [|y l IH]; simpl; [reflexivity|].
  destruct (ltb y x); [|reflexivity].
  rewrite IH. apply perm_swap.
Qed.

Lemma list_sort_perm l : Permutation (list_sort ltb l) l.
Proof.
  induction l as [|x l IH]; simpl; [reflexivity|].
  rewrite sort_insert_perm. constructor. exact IH.
Qed.

Lemma list_sort_length l : length (list_sort ltb l) = length l.
Proof. apply Permutation_length, list_sort_perm. Qed.

Hypothesis ltb_asym : forall a b, ltb a b = true -> ltb b a = false.

Lemma sort_insert_sorted x l :
  Sorted (ordered ltb) l -> Sorted (ordered ltb) (sort_insert ltb x l).
Proof.
  induction 1 as [|y l Hs IH Hhd]; simpl; [repeat constructor|].
  destruct (ltb y x) eqn:E.
  - constructor; [exact IH|].
    destruct l as [|z l]; simpl.
    + constructor. apply ltb_asym, E.
    + destruct (ltb z x); constructor.
      * inversion Hhd; assumption.
      * apply ltb_asym, E.
  - constructor; [constructor; assumption|]. constructor. exact E.
Qed.

Lemma list_sort_sorted l : Sorted (ordered ltb) (list_sort ltb l).
Proof.
  induction l as [|x l IH]; simpl; [constructor|].
  apply sort_insert_sorted, IH.
Qed.

End Sorting.

Section ListOrder.

Context {A : Type} (eqb ltb : A -> A -> bool).
Hypothesis eqb_sym : forall a b, eqb a b = eqb b a.
Hypothesis ltb_asym : forall a b, ltb a b = true -> ltb b a = false.

Lemma list_lt_asym a b :
  list_lt eqb ltb a b = true -> list_lt eqb ltb b a = false.
Proof.
  revert b. induction a as [|x a IH]; intros [|y b]; simpl; try congruence.
  rewrite (eqb_sym y x). destruct (eqb x y); [apply IH | apply ltb_asym].
Qed.

Lemma list_eqb_sym a b : list_eqb eqb a b = list_eqb eqb b a.
Proof.
  revert b. induction a as [|x a IH]; intros [|y b]; simpl; try reflexivity.
  rewrite (eqb_sym x y), IH. reflexivity.
Qed.

End ListOrder.

Lemma Qeq_bool_sym a b : Qeq_bool a b = Qeq_bool b a.
Proof.
  destruct (Qeq_bool a b) eqn:E1, (Qeq_bool b a) eqn:E2; try reflexivity.
  - apply Qeq_bool_iff in E1. symmetry in E1. apply Qeq_bool_iff in E1. congruence.
  - apply Qeq_bool_iff in E2. symmetry in E2. apply Qeq_bool_iff in E2. congruence.
Qed.

Lemma Qltb_asym a b : Qltb a b = true -> Qltb b a = false.
Proof.
  unfold Qltb. destruct (Qle_bool b a) eqn:E1; [discriminate|]. intros _.
  destruct (Qle_bool a b) eqn:E2; [reflexivity|].
  exfalso.
  assert (~ (b <= a)%Q) by (rewrite <- Qle_bool_iff; congruence).
  assert (~ (a <= b)%Q) by (rewrite <- Qle_bool_iff; congruence).
  destruct (Qlt_le_dec a b) as [L|L]; [apply Qlt_le_weak in L|]; tauto.
Qed.

Lemma hint_lt_asym a b : hint_lt a b = true -> hint_lt b a = false.
Proof. apply list_lt_asym; [apply Qeq_bool_sym | apply Qltb_asym]. Qed.

Lemma stem3_lt_asym a b : stem3_lt a b = true -> stem3_lt b a = false.
Proof.
  apply list_lt_asym; [apply list_eqb_sym, Qeq_bool_sym | apply hint_lt_asym].
Qed.

Lemma hintLimit_val : hintLimit = 22%nat.
Proof. reflexivity. Qed.

(** [makeHintList] writes one element per hint at most. *)
Lemma makeHintList_length hints isH :
  (out_length (makeHintList hints isH) <= length hints)%nat.
Proof.
  unfold makeHintList.
  enough (G : forall out : list XMLElement,
             (out_length
                (foldM (fun out hint =>
                          match hint with
                          | [] => Ok out
                          | [_] => Raise IndexError
                          | pos :: width :: _ =>
                              Ok (out ++ [text_element "string"
                                    ((if isH then kHStemName else kVStemName)
                                     +:+ " " +:+ str_num (show_float pos)
                                     +:+ " " +:+ str_num (show_float width))])
                          end) hints out)
              <= length out + length hints)%nat)
    by apply (G []).
  induction hints as [|h hints IH]; intros out; simpl; [lia|].
  destruct h as [|p [|w r]]; simpl; [specialize (IH out); lia | lia |].
  match goal with |- context [foldM _ hints ?o] => specialize (IH o) end.
  rewrite length_app in IH. simpl in IH. lia.
Qed.

Lemma firstn_all_le {A} (n : nat) (l : list A) :
  (length l <= n)%nat -> firstn n l = l.
Proof. intros H. apply firstn_all2. exact H. Qed.

(** [addHintList] on plain stems: the sorted list cut to [hintLimit]. *)
Lemma addHintList_plain hints isH :
  addHintList hints [] isH
  = makeHintList (firstn hintLimit (list_sort hint_lt hints)) isH.
Proof.
  unfold addHintList. cbn [length Nat.ltb Nat.leb].
  destruct (hintLimit <=? length (list_sort hint_lt hints))%nat eqn:E;
    [reflexivity|].
  apply Nat.leb_gt in E. rewrite firstn_all_le by lia. reflexivity.
Qed.

(** [addHintList] on counter groups. *)
Lemma addHintList_stem3 hints g gs isH :
  addHintList hints (g :: gs) isH
  = makeStemHintList (firstn hintLimit (list_sort stem3_lt (g :: gs))) isH.
Proof.
  unfold addHintList. cbn [length Nat.ltb Nat.leb].
  destruct (hintLimit <=? length (list_sort stem3_lt (g :: gs)))%nat eqn:E;
    [reflexivity|].
  apply Nat.leb_gt in E. rewrite firstn_all_le by lia. reflexivity.
Qed.

(** The cut is not that of a stable sort by position: of twenty-three
    stems at the same position the code keeps the twenty-two narrowest, a
    stable sort by position keeps the first twenty-two. *)
Lemma addHintList_by_position_counterexample :
  (hintLimit < length stems23)%nat
  /\ addHintList stems23 [] true
     <> makeHintList (truncate_by_position stems23) true.
Proof.
  split; [vm_compute; lia|]. vm_compute. intros H. discriminate H.
Qed.

(** [addHintList] sorts the hint list in the ascending order of the whole
    entries (position first, then width: the comparison of Python lists)
    and keeps the first [hintLimit = (46 - 2) / 2 = 22] entries; a list of
    counter groups is cut to its first 22 groups in the same way.  The
    plain stems written are at most 22, that is at most 44 = 46 - 2
    numbers. *)
Lemma addHintList_truncation
    (hints : list (list Q)) (g : list (list Q)) (gs : list (list (list Q)))
    (isH : bool) :
  hintLimit = Z.to_nat ((46 - 2) / 2)
  /\ addHintList hints [] isH
     = makeHintList (firstn hintLimit (list_sort hint_lt hints)) isH
  /\ addHintList hints (g :: gs) isH
     = makeStemHintList (firstn hintLimit (list_sort stem3_lt (g :: gs))) isH
  /\ Sorted (ordered hint_lt) (list_sort hint_lt hints)
  /\ Permutation (list_sort hint_lt hints) hints
  /\ Sorted (ordered stem3_lt) (list_sort stem3_lt (g :: gs))
  /\ Permutation (list_sort stem3_lt (g :: gs)) (g :: gs)
  /\ (out_length (addHintList hints [] isH) <= hintLimit)%nat
  /\ 2 * Z.of_nat (out_length (addHintList hints [] isH)) <= kStackLimit - 2.
Proof.
  assert (B : (out_length (addHintList hints [] isH) <= hintLimit)%nat).
  { rewrite addHintList_plain.
    etransitivity; [apply makeHintList_length|].
    rewrite length_firstn. lia. }
  split; [reflexivity|].
  split; [apply addHintList_plain|].
  split; [apply addHintList_stem3|].
  split; [apply list_sort_sorted, hint_lt_asym|].
  split; [apply list_sort_perm|].
  split; [apply list_sort_sorted, stem3_lt_asym|].
  split; [apply list_sort_perm|].
  split; [exact B|].
  rewrite hintLimit_val in B. unfold kStackLimit. lia.
Qed.

(** C6 at the failing input.  The cut of [addHintList] counts entries,
    also when the entries are counter groups of three stems: eight groups
    are fewer than [hintLimit = 22] and are written uncut in one string of
    48 numbers, more than the 44 = 46 - 2 of the budget, and twenty-three
    groups are cut to twenty-two, written as 132 numbers.  Plain stems,
    of two numbers each, stay within the budget. *)
Theorem addHintList_stem3_overflow (isH : bool) :
  (forall hints g gs,
     addHintList hints (g :: gs) isH
     = makeStemHintList (firstn hintLimit (list_sort stem3_lt (g :: gs))) isH)
  /\ (length (counter_groups 8) < hintLimit)%nat
  /\ out_length (addHintList [] (counter_groups 8) isH) = 1%nat
  /\ written_numbers (addHintList [] (counter_groups 8) isH) = 48%nat
  /\ kStackLimit - 2 < 48
  /\ written_numbers (addHintList [] (counter_groups 23) isH) = 132%nat
  /\ (forall hints,
        2 * Z.of_nat (out_length (addHintList hints [] isH))
        <= kStackLimit - 2).
Proof.
  split; [intros hints g gs; apply addHintList_stem3|].
  split; [vm_compute; lia|].
  split; [destruct isH; vm_compute; reflexivity|].
  split; [destruct isH; vm_compute; reflexivity|].
  split; [vm_compute; reflexivity|].
  split; [destruct isH; vm_compute; reflexivity|].
  intros hints.
  assert (B : (out_length (addHintList hints [] isH) <= hintLimit)%nat).
  { rewrite addHintList_plain.
    etransitivity; [apply makeHintList_length|].
    rewrite length_firstn. lia. }
  rewrite hintLimit_val in B. unfold kStackLimit. lia.
Qed.

(** C5 at the failing input: a mask whose only hints are a horizontal
    counter group serialises no stem at all, where the same group on the
    vertical axis is written; the decoder reaches that mask on a stream
    with three [rv]. *)
Theorem addHintSet_drops_hstem3 :
  hstem3List hstem3_mask <> []
  /\ stemsArray hstem3_mask = Ok []
  /\ stemsArray vstem3_mask
     = Ok [text_element "string" "vstem3 0 10 20 10 40 10"]
  /\ hintInfoDict_of (convertBezToOutline empty_font "g" bez_hstem3)
     = Some (XML "dict" ∅ None
               [ text_element "key" "id";
                 text_element "string" "id";
                 text_element "key" kHintSetListName;
                 XML "array" ∅ None
                   [ XML "dict" ∅ None
                       [ text_element "key" kPointTag;
                         text_element "string" "hintSet0000";
                         text_element "key" "stems";
                         XML "array" ∅ None [] ] ] ]).
Proof.
  split; [discriminate|]. repeat split; vm_compute; reflexivity.
Qed.

(** * The depth limit of component resolution *)

Lemma bind_no_depth {A B} (m : res A) (k : A -> res B) :
  is_depth_error m = false ->
  (forall a, is_depth_error (k a) = false) ->
  is_depth_error (bind m k) = false.
Proof. intros Hm Hk. destruct m; simpl; auto. Qed.

Lemma foldM_no_depth {A S} (f : S -> A -> res S) l s :
  (forall s a, In a l -> is_depth_error (f s a) = false) ->
  is_depth_error (foldM f l s) = false.
Proof.
  revert s. induction l as [|a l IH]; intros s H; simpl; [reflexivity|].
  apply bind_no_depth; [apply H; left; reflexivity|].
  intros s'. apply IH. intros s0 a0 Hin. apply H. right. exact Hin.
Qed.

Lemma getitem_no_depth {V} (d : gmap string V) k :
  is_depth_error (getitem d k) = false.
Proof. unfold getitem. destruct (d !! k); reflexivity. Qed.

Lemma float_of_string_error s e : float_of_string s = Raise e -> e = ValueError.
Proof.
  unfold float_of_string, float_body.
  destruct (sign_split s) as [neg body].
  destruct (split_dot body) as [ip fp].
  destruct (NilEmpty.uint_of_string ip); [|congruence].
  destruct (NilEmpty.uint_of_string _); [|congruence].
  destruct (_ =? _)%nat; congruence.
Qed.

Lemma float_of_string_no_depth s : is_depth_error (float_of_string s) = false.
Proof.
  destruct (float_of_string s) eqn:E; [reflexivity|].
  apply float_of_string_error in E. subst. reflexivity.
Qed.

Lemma point_xy_no_depth allowDecimals transform item :
  is_depth_error (point_xy allowDecimals transform item) = false.
Proof.
  unfold point_xy.
  apply bind_no_depth; [apply getitem_no_depth|]. intros xs.
  apply bind_no_depth; [apply float_of_string_no_depth|]. intros x.
  apply bind_no_depth; [apply getitem_no_depth|]. intros ys.
  apply bind_no_depth; [apply float_of_string_no_depth|]. intros y.
  destruct (match transform with Some t => apply t x y | None => (x, y) end).
  destruct (negb allowDecimals); reflexivity.
Qed.

Lemma emit_point_no_depth allowDecimals transform st contourItem :
  is_depth_error (emit_point allowDecimals transform st contourItem) = false.
Proof.
  unfold emit_point. destruct st as [argStack bezStringList].
  destruct (negb _); [reflexivity|].
  apply bind_no_depth; [apply point_xy_no_depth|]. intros [x y].
  repeat (match goal with
          | |- context [if ?c then _ else _] => destruct c
          end; try reflexivity).
Qed.

Lemma on_KeyError_no_depth {A} (m handler : res A) :
  is_depth_error m = false -> is_depth_error handler = false ->
  is_depth_error (on_KeyError m handler) = false.
Proof. intros Hm Hh. destruct m as [a|[]]; simpl; auto. Qed.

Lemma setup_moveto_no_depth allowDecimals transform outlineItem lastItem bez :
  is_depth_error (setup_moveto allowDecimals transform outlineItem lastItem bez)
  = false.
Proof.
  unfold setup_moveto.
  destruct (str_in _ _).
  { apply bind_no_depth; [apply point_xy_no_depth|]. intros [x y]. reflexivity. }
  destruct (String.eqb _ "move"); [destruct (_ =? _)%nat; reflexivity|].
  destruct (String.eqb _ "offcurve"); [|reflexivity].
  apply on_KeyError_no_depth; [|reflexivity].
  apply bind_no_depth; [apply getitem_no_depth|]. intros lastType.
  apply bind_no_depth; [apply point_xy_no_depth|]. intros [x y].
  destruct (String.eqb lastType "line"); [reflexivity|].
  destruct (String.eqb lastType "curve"); reflexivity.
Qed.

Lemma convertContour_no_depth allowDecimals transform outlineItem bez :
  is_depth_error (convertContour allowDecimals transform outlineItem bez) = false.
Proof.
  unfold convertContour. destruct (children outlineItem) as [|lastItem rest];
    [reflexivity|].
  apply bind_no_depth; [apply setup_moveto_no_depth|].
  intros [[points bez']|]; [|reflexivity].
  apply bind_no_depth; [|reflexivity].
  apply foldM_no_depth. intros. apply emit_point_no_depth.
Qed.

(** Above level 10 the encoder raises. *)
Lemma convert_above_limit outlineXML font transform k :
  convertGlyphOutlineToBezString outlineXML font transform (11 + k)
  = Raise (UFOParseError ExceededLevels).
Proof.
  unfold convertGlyphOutlineToBezString.
  replace (11 - (11 + k))%nat with 0%nat by lia. reflexivity.
Qed.

(** Up to level 10 an outline without component does not meet the limit. *)
Lemma convert_within_limit o font transform k :
  has_component o = false ->
  is_depth_error
    (convertGlyphOutlineToBezString (Some o) font transform (10 - k)) = false.
Proof.
  intros Hc. unfold convertGlyphOutlineToBezString.
  destruct (11 - (10 - k))%nat as [|b] eqn:E; [lia|]. simpl.
  apply bind_no_depth; [|reflexivity].
  apply foldM_no_depth. intros bez item Hin.
  destruct (String.eqb (tag item) "component") eqn:Et.
  - unfold has_component in Hc.
    assert (existsb (fun c => String.eqb (tag c) "component") (children o) = true)
      by (apply existsb_exists; exists item; split; assumption).
    congruence.
  - destruct (negb _); [reflexivity|]. apply convertContour_no_depth.
Qed.

Lemma contour_tokens_no_depth childContour dataList :
  is_depth_error (contour_tokens childContour dataList) = false.
Proof.
  unfold contour_tokens. destruct (_ <? _)%nat; [reflexivity|].
  apply foldM_no_depth. intros l child _.
  destruct (String.eqb _ _); [|reflexivity].
  apply bind_no_depth; [|reflexivity].
  unfold point_token.
  apply bind_no_depth.
  { destruct (attrib child !! "type") as [[|c s]|]; reflexivity. }
  intros t. apply bind_no_depth; [apply getitem_no_depth|]. intros x.
  apply bind_no_depth; [apply getitem_no_depth|]. reflexivity.
Qed.

(** Above level 10 the hash builder raises. *)
Lemma hash_above_limit sha font width outlineXML glyphName useDefault k :
  buildGlyphHashValue sha font width outlineXML glyphName useDefault (11 + k)
  = Raise (UFOParseError ExceededLevels).
Proof.
  unfold buildGlyphHashValue.
  replace (11 - (11 + k))%nat with 0%nat by lia. reflexivity.
Qed.

(** Up to level 10 an outline without component does not meet the limit. *)
Lemma hash_within_limit sha font width o glyphName useDefault k :
  has_component o = false ->
  is_depth_error
    (buildGlyphHashValue sha font width (Some o) glyphName useDefault (10 - k))
  = false.
Proof.
  intros Hc. unfold buildGlyphHashValue.
  destruct (11 - (10 - k))%nat as [|b] eqn:E; [lia|].
  apply bind_no_depth; [|intros l; destruct (_ <? _)%nat; reflexivity].
  simpl. destruct o as [t a x [|c cs]]; [reflexivity|].
  apply foldM_no_depth. intros l item Hin.
  destruct (String.eqb (tag item) "contour"); [apply contour_tokens_no_depth|].
  destruct (String.eqb (tag item) "component") eqn:Et; [|reflexivity].
  unfold has_component in Hc.
  assert (existsb (fun c => String.eqb (tag c) "component")
            (children (XML t a x (c :: cs))) = true)
    by (apply existsb_exists; exists item; split; assumption).
  congruence.
Qed.

(** * The encoder: the move-to of a contour *)

Lemma point_xy_eq allowDecimals transform item xs ys fx fy :
  attrib item !! "x" = Some xs -> float_of_string xs = Ok fx ->
  attrib item !! "y" = Some ys -> float_of_string ys = Ok fy ->
  point_xy allowDecimals transform item
  = Ok (encoded_coord allowDecimals (fst (transformed transform fx fy)),
        encoded_coord allowDecimals (snd (transformed transform fx fy))).
Proof.
  intros Hx Fx Hy Fy. unfold point_xy, getitem. rewrite Hx. simpl.
  rewrite Fx. simpl. rewrite Hy. simpl. rewrite Fy. simpl.
  unfold transformed, encoded_coord.
  destruct (match transform with Some t => apply t fx fy | None => (fx, fy) end).
  destruct allowDecimals; reflexivity.
Qed.

(** C3, as stated, fails for a first point of kind [line]: the point is
    taken off the list and not put back at its end, so the triangle is
    encoded without a closing line-to. *)
Lemma setup_moveto_line_counterexample :
  point_type_of triangle_first = "line"
  /\ setup_moveto false None (triangle_first :: triangle_rest) triangle_first []
     <> Ok (Some (triangle_rest ++ [triangle_first], ["0 0 mt"]))
  /\ convertGlyphOutlineToBezString
       (Some (outline [contour (triangle_first :: triangle_rest)]))
       empty_font None 0
     = Ok (String.concat (String newline "")
             ["0 0 mt"; "10 0 dt"; "10 10 dt"; "cp"]).
Proof.
  split; [reflexivity|]. split; [|vm_compute; reflexivity].
  vm_compute. intros H. discriminate H.
Qed.

(** C3, amended. For a non-empty contour whose first point has kind
    [curve], the point list is rotated so that the first point becomes
    last; when its kind is [line], the first point is removed from the list
    and not appended.  In both cases a move-to at its transformed, and
    unless decimals are allowed rounded, coordinate is the next operator
    emitted, the first of the contour. *)
Theorem setup_moveto_on_curve_start
    (allowDecimals : bool) (transform : option UFOTransform)
    (lastItem : XMLElement) (rest : list XMLElement)
    (bezStringList : list string) (xs ys : string) (fx fy : Q) :
  point_type_of lastItem = "line" \/ point_type_of lastItem = "curve" ->
  attrib lastItem !! "x" = Some xs -> float_of_string xs = Ok fx ->
  attrib lastItem !! "y" = Some ys -> float_of_string ys = Ok fy ->
  let x := encoded_coord allowDecimals (fst (transformed transform fx fy)) in
  let y := encoded_coord allowDecimals (snd (transformed transform fx fy)) in
  let points := if String.eqb (point_type_of lastItem) "line"
                then rest else rest ++ [lastItem] in
  let moveto := op_str allowDecimals [x; y] "mt" in
  setup_moveto allowDecimals transform (lastItem :: rest) lastItem bezStringList
  = Ok (Some (points, bezStringList ++ [moveto]))
  /\ convertContour allowDecimals transform
       (XML "contour" ∅ None (lastItem :: rest)) bezStringList
     = (let* st := foldM (emit_point allowDecimals transform) points
                     ([], bezStringList ++ [moveto]) in
        Ok (snd st ++ ["cp"])).
Proof.
  intros Hk Hx Fx Hy Fy x y points moveto.
  assert (E : setup_moveto allowDecimals transform (lastItem :: rest) lastItem
                bezStringList
              = Ok (Some (points, bezStringList ++ [moveto]))).
  { unfold setup_moveto.
    rewrite (point_xy_eq allowDecimals transform lastItem xs ys fx fy Hx Fx Hy Fy).
    subst points. destruct Hk as [-> | ->]; reflexivity. }
  split; [exact E|].
  unfold convertContour. cbn [children]. rewrite E. reflexivity.
Qed.

Lemma setup_moveto_on_curve_start_witness :
  (point_type_of loop_first = "line" \/ point_type_of loop_first = "curve")
  /\ attrib loop_first !! "x" = Some "0" /\ float_of_string "0" = Ok 0%Q
  /\ attrib loop_first !! "y" = Some "0" /\ float_of_string "0" = Ok 0%Q
  /\ setup_moveto false None (loop_first :: loop_rest) loop_first []
     = Ok (Some (loop_rest ++ [loop_first], ["0 0 mt"])).
Proof.
  split; [right; reflexivity|].
  split; [reflexivity|]. split; [reflexivity|].
  split; [reflexivity|]. split; [reflexivity|].
  apply (setup_moveto_on_curve_start false None loop_first loop_rest []
           "0" "0" 0%Q 0%Q);
    [right; reflexivity | reflexivity | reflexivity | reflexivity | reflexivity].
Defined.

(** The handled cases of a contour that starts off-curve: a last point of
    kind [line] is dropped, one of kind [curve] is kept, and a move-to at
    the last point is emitted. *)
Lemma setup_moveto_offcurve_start allowDecimals transform lastItem rest
    bezStringList curLastItem lastType xs ys fx fy :
  point_type_of lastItem = "offcurve" ->
  List.last (lastItem :: rest) lastItem = curLastItem ->
  attrib curLastItem !! "type" = Some lastType ->
  lastType = "line" \/ lastType = "curve" ->
  attrib curLastItem !! "x" = Some xs -> float_of_string xs = Ok fx ->
  attrib curLastItem !! "y" = Some ys -> float_of_string ys = Ok fy ->
  setup_moveto allowDecimals transform (lastItem :: rest) lastItem bezStringList
  = Ok (Some (if String.eqb lastType "line"
              then removelast (lastItem :: rest) else lastItem :: rest,
              bezStringList
              ++ [op_str allowDecimals
                    [encoded_coord allowDecimals (fst (transformed transform fx fy));
                     encoded_coord allowDecimals (snd (transformed transform fx fy))]
                    "mt"])).
Proof.
  intros Hk Hl Ht Hlt Hx Fx Hy Fy. unfold setup_moveto. rewrite Hk.
  cbn [str_in existsb String.eqb Ascii.eqb Bool.eqb orb].
  rewrite Hl. unfold getitem at 1. rewrite Ht. simpl bind.
  rewrite (point_xy_eq allowDecimals transform curLastItem xs ys fx fy Hx Fx Hy Fy).
  destruct Hlt as [-> | ->]; reflexivity.
Qed.

(** C4 at the failing inputs: with a first point off-curve and a last
    point whose type is written and is neither [line] nor [curve], no
    error is raised and no move-to is emitted; the encoder goes on and
    returns a stream.  Only a last point without type raises. *)
Theorem setup_moveto_unhandled_last :
  setup_moveto false None offcurve_ends (point "1" "2" None) []
  = Ok (Some (offcurve_ends, []))
  /\ convertGlyphOutlineToBezString (Some (outline [contour offcurve_ends]))
       empty_font None 0
     = Ok (String.concat (String newline "") ["5 6 dt"; "cp"])
  /\ convertGlyphOutlineToBezString (Some (outline [contour offcurve_then_move]))
       empty_font None 0
     = Ok (String.concat (String newline "") ["3 4 mt"; "cp"])
  /\ convertGlyphOutlineToBezString
       (Some (outline [contour offcurve_ends_untyped])) empty_font None 0
     = Raise (UFOParseError UnhandledFirstAndLast).
Proof.
  repeat split; vm_compute; reflexivity.
Qed.

(** * Round trip, the text: numbers and tokens *)





Lemma all_chars_impl (f g : ascii -> bool) s :
  (forall c, f c = true -> g c = true) ->
  all_chars f s = true -> all_chars g s = true.
Proof.
  intros H. induction s as [|c s IH]; simpl; [auto|].
  intros Hs. apply andb_true_iff in Hs as [Hc Hs].
  rewrite (H c Hc), (IH Hs). reflexivity.
Qed.













Lemma py_round_inject z : py_round (inject_Z z) = z.
Proof.
  unfold py_round, inject_Z. simpl Qnum. simpl Qden.
  rewrite Z.div_1_r, Z.mod_1_r. reflexivity.
Qed.


(** ** The tokens of a text *)

Lemma starts_token_app_space s1 sp s2 :
  is_space sp = true ->
  starts_token (s1 +:+ String sp s2) = starts_token s1.
Proof. intros H. destruct s1; simpl; [rewrite H|]; reflexivity. Qed.

Lemma findall_S_starts s : starts_token s = true -> findall_S s <> [].
Proof.
  destruct s as [|c s]; simpl; [discriminate|].
  intros H. apply negb_true_iff in H. rewrite H.
  destruct (starts_token s); [destruct (findall_S s)|]; discriminate.
Qed.

(** A blank always separates the tokens before it from those after it. *)
Lemma findall_S_app_space s1 sp s2 :
  is_space sp = true ->
  findall_S (s1 +:+ String sp s2) = findall_S s1 ++ findall_S s2.
Proof.
  intros H. induction s1 as [|c s1 IH]; simpl.
  - rewrite H. reflexivity.
  - rewrite IH. destruct (is_space c); [reflexivity|].
    rewrite (starts_token_app_space s1 sp s2 H).
    destruct (starts_token s1) eqn:E; [|reflexivity].
    destruct (findall_S s1) as [|t r] eqn:F; [|reflexivity].
    exfalso. apply (findall_S_starts s1 E F).
Qed.




Lemma findall_S_concat sp (l : list string) :
  is_space sp = true ->
  findall_S (String.concat (String sp "") l) = flat_map findall_S l.
Proof.
  intros H. induction l as [|x l IH]; [reflexivity|].
  destruct l as [|y l].
  - simpl. rewrite app_nil_r. reflexivity.
  - change (String.concat (String sp "") (x :: y :: l))
      with (x +:+ String sp (String.concat (String sp "") (y :: l))).
    rewrite (findall_S_app_space _ _ _ H), IH. reflexivity.
Qed.


(** ** Comments *)

Lemma strip_aux_no_percent s : no_percent s = true -> fst (strip_aux s) = s.
Proof.
  induction s as [|c s IH]; simpl; [reflexivity|].
  intros H. apply andb_true_iff in H as [Hc Hs]. apply negb_true_iff in Hc.
  specialize (IH Hs). destruct (strip_aux s) as [r nl]. simpl in IH. subst r.
  rewrite Hc. destruct (Ascii.eqb c newline); reflexivity.
Qed.

Lemma strip_comments_no_percent s : no_percent s = true -> strip_comments s = s.
Proof. apply strip_aux_no_percent. Qed.

Lemma no_percent_app s1 s2 :
  no_percent (s1 +:+ s2) = no_percent s1 && no_percent s2.
Proof.
  induction s1 as [|c s1 IH]; simpl; [reflexivity|].
  rewrite IH, andb_assoc. reflexivity.
Qed.

Lemma no_percent_concat sep (l : list string) :
  no_percent sep = true -> forallb no_percent l = true ->
  no_percent (String.concat sep l) = true.
Proof.
  intros Hsep. induction l as [|x l IH]; [reflexivity|].
  intros H. simpl in H. apply andb_true_iff in H as [Hx Hl].
  destruct l as [|y l]; [exact Hx|].
  change (String.concat sep (x :: y :: l))
    with (x +:+ sep +:+ String.concat sep (y :: l)).
  rewrite !no_percent_app, Hx, Hsep, (IH Hl). reflexivity.
Qed.

(** * Round trip, the decoder on operator lines *)






Lemma foldM_app {A S} (f : S -> A -> res S) l1 l2 s :
  foldM f (l1 ++ l2) s = (let* s' := foldM f l1 s in foldM f l2 s').
Proof.
  revert s. induction l1 as [|a l1 IH]; intros s; simpl; [reflexivity|].
  destruct (f s a); simpl; [apply IH | reflexivity].
Qed.



Lemma step_dt st : step st "dt" = op_point "dt" st.
Proof. unfold step. simpl. rewrite andb_false_r. reflexivity. Qed.

Lemma step_ct st : step st "ct" = op_ct st.
Proof. unfold step. simpl. rewrite andb_false_r. reflexivity. Qed.

Lemma step_cp st : step st "cp" = Ok st.
Proof. reflexivity. Qed.




(** * Round trip, the encoder as operator lines *)






Lemma render_mt_of p :
  op_str false [PyInt (round_attr "x" p); PyInt (round_attr "y" p)] "mt"
  = render (mt_of p).
Proof. reflexivity. Qed.








(** * [UFOTransform]: what [apply] and [concat] compute *)

(** One turn of the loop of [__init__] keeps the transform a default one
    exactly when the factor it appends is the default of its tag. *)
Lemma init_tag_default componentXML a tag a' :
  In tag kTransformTagList ->
  init_tag componentXML a tag = Ok a' ->
  exists f,
    acc_factors a' = acc_factors a ++ [f]
    /\ acc_isDefault a' && negb (acc_hasScale a') && negb (acc_hasOffset a')
       = acc_isDefault a && negb (acc_hasScale a) && negb (acc_hasOffset a)
         && Qeq_bool f (tag_default tag).
Proof.
  intros Hin H. unfold init_tag in H.
  assert (Hcases : tag = "xScale" \/ tag = "xyScale" \/ tag = "yxScale"
                   \/ tag = "yScale" \/ tag = "xOffset" \/ tag = "yOffset").
  { simpl in Hin. intuition auto. }
  destruct (attrib componentXML !! tag) as [v|].
  - destruct Hcases as [-> | [-> | [-> | [-> | [-> | ->]]]]]; simpl in H;
      destruct (float_of_string v) as [f|]; try discriminate; simpl in H.
    all: destruct (Qeq_bool f _) eqn:E; simpl in H; inversion H; subst; clear H.
    all: exists f; simpl; unfold tag_default; simpl; rewrite ?E.
    all: split; [reflexivity|].
    all: destruct (acc_isDefault a), (acc_hasScale a), (acc_hasOffset a);
      reflexivity.
  - destruct Hcases as [-> | [-> | [-> | [-> | [-> | ->]]]]]; simpl in H;
      inversion H; subst; clear H; eexists; simpl.
    all: split; [reflexivity|].
    all: destruct (acc_isDefault a), (acc_hasScale a), (acc_hasOffset a);
      reflexivity.
Qed.

(** A transform that [__init__] leaves as default has the factors of the
    identity map. *)
Lemma UFOTransform_init_default componentXML t :
  UFOTransform_init componentXML = Ok t ->
  isDefault t = true -> affine_identity t.
Proof.
  unfold UFOTransform_init, kTransformTagList. simpl foldM.
  intros H.
  repeat match type of H with
  | bind (bind (init_tag ?x ?a ?tag) _) _ = _ =>
      let a' := fresh "a" in
      let E := fresh "E" in
      destruct (init_tag x a tag) as [a'|] eqn:E; [|discriminate];
      apply init_tag_default in E; [|unfold kTransformTagList; simpl; tauto];
      simpl bind at 2 in H
  end.
  simpl in H. inversion H; subst; clear H. simpl.
  destruct E as (f0 & F0 & S0). destruct E0 as (f1 & F1 & S1).
  destruct E1 as (f2 & F2 & S2). destruct E2 as (f3 & F3 & S3).
  destruct E3 as (f4 & F4 & S4). destruct E4 as (f5 & F5 & S5).
  simpl in F0, S0.
  unfold affine_identity, linear_identity, tf. simpl transformFactors.
  rewrite F5, F4, F3, F2, F1, F0. simpl.
  intros Hd.
  assert (Hall : acc_isDefault a4 && negb (acc_hasScale a4)
                 && negb (acc_hasOffset a4) = true).
  { destruct (acc_hasScale a4), (acc_hasOffset a4); simpl in Hd;
      try discriminate; rewrite Hd; reflexivity. }
  rewrite S5, S4, S3, S2, S1, S0 in Hall. unfold tag_default in Hall.
  simpl in Hall.
  repeat (apply andb_true_iff in Hall; destruct Hall as [Hall ?]).
  rewrite <- !Qeq_bool_iff. tauto.
Qed.

(** The invariant of the transforms the encoder builds, with the flag
    [isDefault]. *)
Lemma reachable_flags t :
  reachable t ->
  length (transformFactors t) = 6%nat
  /\ (isOffsetOnly t = true -> linear_identity t)
  /\ (isDefault t = true -> affine_identity t).
Proof.
  induction 1 as [x t H | self transform Hs (Ls & Is & Ds) Ht (Lt & It & Dt)].
  - destruct (UFOTransform_init_spec _ _ H) as [L I].
    split; [exact L|]. split; [apply I|].
    apply (UFOTransform_init_default _ _ H).
  - destruct (reachable_inv _ (reach_concat _ _ Hs Ht)) as [L I].
    split; [exact L|]. split; [exact I|].
    unfold concat. destruct (isDefault transform); [exact Ds|].
    destruct (isOffsetOnly transform); cbn [isDefault]; discriminate.
Qed.

(** On every transform the encoder builds, the short cut that [apply] takes
    when [isOffsetOnly] is set gives the point of the full affine map of the
    six factors. *)
Theorem apply_is_affine (t : UFOTransform) (x y : Q) :
  reachable t ->
  same_point (apply t x y) (affine (transformFactors t) x y).
Proof.
  intros R. destruct (reachable_flags t R) as (L & I & _).
  unfold apply, affine, same_point.
  destruct (isOffsetOnly t); [|split; reflexivity].
  destruct (I eq_refl) as (H0 & H1 & H2 & H3).
  cbn [fst snd]. rewrite H0, H1, H2, H3. split; ring.
Qed.

Lemma apply_is_affine_witness :
  reachable moved_transform
  /\ same_point (apply moved_transform 1 2)
       (affine (transformFactors moved_transform) 1 2).
Proof.
  assert (R : reachable moved_transform)
    by (apply (reach_init moved); vm_compute; reflexivity).
  split; [exact R|].
  apply (apply_is_affine moved_transform 1 2 R).
Defined.

(** * The incremental cache: what a call leaves behind *)

Lemma index_of_In x l n : index_of x l = Some n -> In x l.
Proof.
  revert n. induction l as [|y l IH]; intros n; simpl; [discriminate|].
  destruct (String.eqb y x) eqn:E.
  - apply String.eqb_eq in E. intros _. left. exact E.
  - destruct (index_of x l) as [m|]; [|discriminate].
    intros _. right. apply (IH m eq_refl).
Qed.

Lemma removeProcessed_disk b glyphName s :
  disk (removeProcessed b glyphName s) = disk s
  \/ exists path,
       getGlyphProcessedPath s glyphName = Some path
       /\ is_Some (disk s !! path)
       /\ disk (removeProcessed b glyphName s) = delete path (disk s).
Proof.
  unfold removeProcessed.
  destruct (getGlyphProcessedPath s glyphName) as [path|]; [|left; reflexivity].
  destruct (negb _); [|left; reflexivity]. cbn [andb].
  unfold path_exists. case_bool_decide as Hex; [|left; reflexivity].
  right. exists path. split; [reflexivity|]. split; [exact Hex|].
  destruct b; reflexivity.
Qed.

Lemma removeProcessed_path b glyphName s :
  getGlyphProcessedPath (removeProcessed b glyphName s) glyphName
  = getGlyphProcessedPath s glyphName.
Proof.
  unfold removeProcessed.
  destruct (getGlyphProcessedPath s glyphName) eqn:E; [|exact E].
  destruct (_ && _); [|exact E]. destruct b; exact E.
Qed.

(** After a successful call with the hash map in use, the entry of the
    glyph holds the new source hash and a history that names this program,
    whichever branch was taken and whether the glyph is skipped or not. *)
Theorem checkSkipGlyph_records_hash
    (s s' : UFOFontData) (glyphName newSrcHash : string) (doAll skip : bool) :
  useHashMap s = true ->
  checkSkipGlyph s glyphName newSrcHash doAll = Ok (skip, s') ->
  exists historyList,
    stored_entry s' glyphName = Some (newSrcHash, historyList)
    /\ In kAutohintName historyList.
Proof.
  intros Hu. unfold checkSkipGlyph. rewrite Hu. cbn [negb].
  destruct (ensureHashMap s) as [s0|]; [|discriminate]. cbn [bind].
  unfold stored_entry.
  destruct (hashMap s0 !! glyphName) as [[major minor|srcHash historyList]|]
    eqn:Em; cbn [bind]; [discriminate| |].
  - case_bool_decide as Eh.
    + injection Eh as ->.
      destruct (index_of kAutohintName historyList) as [n|] eqn:Ei.
      * apply index_of_In in Ei.
        destruct doAll; cbn [negb]; [|intros [= <- <-]; rewrite Em; eauto].
        destruct (useProcessedLayer s0); cbn [negb];
          intros [= <- <-]; rewrite ?removeProcessed_hashMap;
          cbn [hashMap set_hashMap]; rewrite ?lookup_insert_eq, ?Em;
          eexists; (split; [reflexivity|]); solve_history.
      * cbn [negb]. destruct (useProcessedLayer s0); cbn [negb];
          intros [= <- <-]; rewrite ?removeProcessed_hashMap;
          cbn [hashMap set_hashMap]; rewrite lookup_insert_eq;
          eexists; (split; [reflexivity|]); solve_history.
    + destruct (useProcessedLayer s0); [destruct (foundMatch _ _)|];
        intros [= <- <-]; rewrite removeProcessed_hashMap;
        cbn [hashMap set_hashMap add_log set_hashMapChanged];
        rewrite lookup_insert_eq; eexists; (split; [reflexivity|]);
        solve_history.
  - rewrite bool_decide_eq_false_2 by discriminate.
    destruct (useProcessedLayer s0); cbn [foundMatch length Nat.ltb Nat.leb];
      intros [= <- <-]; rewrite removeProcessed_hashMap;
      cbn [hashMap set_hashMap add_log set_hashMapChanged];
      rewrite lookup_insert_eq; eexists; (split; [reflexivity|]);
      solve_history.
Qed.

Lemma checkSkipGlyph_records_hash_witness :
  useHashMap edited_font = true
  /\ exists skip s',
       checkSkipGlyph edited_font "a" "H2" false = Ok (skip, s')
       /\ exists historyList,
            stored_entry s' "a" = Some ("H2", historyList)
            /\ In kAutohintName historyList.
Proof.
  split; [reflexivity|].
  destruct (checkSkipGlyph edited_font "a" "H2" false) as [[skip s']|] eqn:E;
    [|vm_compute in E; discriminate].
  exists skip, s'. split; [reflexivity|].
  apply (checkSkipGlyph_records_hash edited_font s' "a" "H2" false skip eq_refl E).
Defined.

(** A call touches the entry of its glyph only: in a hash map that has been
    read, the entry of every other name is after the call what it was
    before. *)
Theorem checkSkipGlyph_other_entries
    (s s' : UFOFontData) (glyphName other newSrcHash : string)
    (doAll skip : bool) :
  size (hashMap s) <> 0%nat ->
  other <> glyphName ->
  checkSkipGlyph s glyphName newSrcHash doAll = Ok (skip, s') ->
  hashMap s' !! other = hashMap s !! other.
Proof.
  intros Hn Ho. unfold checkSkipGlyph.
  destruct (useHashMap s); cbn [negb]; [|intros [= <- <-]; reflexivity].
  unfold ensureHashMap. destruct (decide _) as [E|_]; [contradiction|].
  cbn [bind].
  destruct (hashMap s !! glyphName) as [[major minor|srcHash historyList]|];
    cbn [bind]; [discriminate| |].
  - case_bool_decide as Eh.
    + destruct (index_of kAutohintName historyList), doAll,
        (useProcessedLayer s); cbn [negb];
        intros [= <- <-]; rewrite ?removeProcessed_hashMap;
        cbn [hashMap set_hashMap set_hashMapChanged];
        rewrite ?lookup_insert_ne by congruence; reflexivity.
    + destruct (useProcessedLayer s); [destruct (foundMatch _ _)|];
        intros [= <- <-]; rewrite removeProcessed_hashMap;
        cbn [hashMap set_hashMap add_log set_hashMapChanged];
        rewrite lookup_insert_ne by congruence; reflexivity.
  - rewrite bool_decide_eq_false_2 by discriminate.
    destruct (useProcessedLayer s); cbn [foundMatch length Nat.ltb Nat.leb];
      intros [= <- <-]; rewrite removeProcessed_hashMap;
      cbn [hashMap set_hashMap add_log set_hashMapChanged];
      rewrite lookup_insert_ne by congruence; reflexivity.
Qed.

Lemma checkSkipGlyph_other_entries_witness :
  size (hashMap edited_font) <> 0%nat /\ kAdobHashMapVersionName <> "a"
  /\ exists skip s',
       checkSkipGlyph edited_font "a" "H2" false = Ok (skip, s')
       /\ hashMap s' !! kAdobHashMapVersionName
          = hashMap edited_font !! kAdobHashMapVersionName.
Proof.
  assert (Hn : size (hashMap edited_font) <> 0%nat)
    by (vm_compute; discriminate).
  assert (Ho : kAdobHashMapVersionName <> "a") by discriminate.
  split; [exact Hn|]. split; [exact Ho|].
  destruct (checkSkipGlyph edited_font "a" "H2" false) as [[skip s']|] eqn:E;
    [|vm_compute in E; discriminate].
  exists skip, s'. split; [reflexivity|].
  apply (checkSkipGlyph_other_entries edited_font s' "a" _ "H2" false skip
           Hn Ho E).
Defined.

(** With [doAll] set, a glyph is skipped in one case only: the processed
    layer is in use, the stored hash differs from the new one, and a program
    of the required history is in the stored history (the glyph was edited
    by hand after that program ran). *)
Theorem checkSkipGlyph_doAll
    (s s' : UFOFontData) (glyphName newSrcHash : string) :
  checkSkipGlyph s glyphName newSrcHash true = Ok (true, s') ->
  useProcessedLayer s = true
  /\ exists s0 srcHash historyList,
       ensureHashMap s = Ok s0
       /\ stored_entry s0 glyphName = Some (srcHash, historyList)
       /\ srcHash <> newSrcHash
       /\ foundMatch (requiredHistory s) historyList = true.
Proof.
  unfold checkSkipGlyph.
  destruct (useHashMap s); cbn [negb]; [|discriminate].
  destruct (ensureHashMap s) as [s0|] eqn:Ee; [|discriminate]. cbn [bind].
  destruct (ensureHashMap_fields _ _ Ee) as (Hp & Hr & _).
  unfold stored_entry.
  destruct (hashMap s0 !! glyphName) as [[major minor|srcHash historyList]|]
    eqn:Em; cbn [bind]; [discriminate| |].
  - case_bool_decide as Eh.
    + destruct (index_of kAutohintName historyList), (useProcessedLayer s0);
        cbn [negb]; discriminate.
    + rewrite Hp, Hr.
      destruct (useProcessedLayer s); [|discriminate].
      destruct (foundMatch _ _) eqn:Ef; [|discriminate].
      intros _. split; [reflexivity|].
      exists s0, srcHash, historyList. rewrite Em.
      repeat split; try reflexivity; [congruence | exact Ef].
  - rewrite bool_decide_eq_false_2 by discriminate.
    destruct (useProcessedLayer s0); cbn [foundMatch length Nat.ltb Nat.leb];
      discriminate.
Qed.

Lemma checkSkipGlyph_doAll_witness :
  exists s',
    checkSkipGlyph edited_font "a" "H2" true = Ok (true, s')
    /\ useProcessedLayer edited_font = true
    /\ exists s0 srcHash historyList,
         ensureHashMap edited_font = Ok s0
         /\ stored_entry s0 "a" = Some (srcHash, historyList)
         /\ srcHash <> "H2"
         /\ foundMatch (requiredHistory edited_font) historyList = true.
Proof.
  destruct (checkSkipGlyph edited_font "a" "H2" true) as [[[|] s']|] eqn:E;
    try (vm_compute in E; discriminate).
  exists s'. split; [reflexivity|].
  apply (checkSkipGlyph_doAll edited_font s' "a" "H2" E).
Defined.

(** A call writes no file and removes at most one: the file of the glyph in
    the processed layer, when there is one. *)
Theorem checkSkipGlyph_disk
    (s s' : UFOFontData) (glyphName newSrcHash : string) (doAll skip : bool) :
  checkSkipGlyph s glyphName newSrcHash doAll = Ok (skip, s') ->
  disk s' = disk s
  \/ exists path,
       getGlyphProcessedPath s glyphName = Some path
       /\ is_Some (disk s !! path)
       /\ disk s' = delete path (disk s).
Proof.
  unfold checkSkipGlyph.
  destruct (useHashMap s); cbn [negb]; [|intros [= <- <-]; left; reflexivity].
  destruct (ensureHashMap s) as [s0|] eqn:Ee; [|discriminate]. cbn [bind].
  destruct (ensureHashMap_fields _ _ Ee) as (_ & _ & Hm & Hl & Hd & _).
  assert (Hrem : forall b s1,
            disk s1 = disk s0 ->
            processedLayerGlyphMap s1 = processedLayerGlyphMap s0 ->
            glyphLayerDir s1 = glyphLayerDir s0 ->
            disk (removeProcessed b glyphName s1) = disk s
            \/ exists path,
                 getGlyphProcessedPath s glyphName = Some path
                 /\ is_Some (disk s !! path)
                 /\ disk (removeProcessed b glyphName s1) = delete path (disk s)).
  { intros b s1 H1 H2 H3.
    assert (Hpath : getGlyphProcessedPath s1 glyphName
                    = getGlyphProcessedPath s glyphName).
    { unfold getGlyphProcessedPath. rewrite H2, H3, Hm, Hl. reflexivity. }
    destruct (removeProcessed_disk b glyphName s1) as [E|(path & P1 & P2 & P3)].
    - left. rewrite E, H1, Hd. reflexivity.
    - right. exists path. rewrite <- Hpath, <- Hd, <- H1. auto. }
  destruct (hashMap s0 !! glyphName) as [[major minor|srcHash historyList]|];
    cbn [bind]; [discriminate| |].
  - case_bool_decide as Eh.
    + destruct (index_of kAutohintName historyList), doAll,
        (useProcessedLayer s0); cbn [negb]; intros [= <- <-];
        try (left; exact Hd); apply Hrem; reflexivity.
    + destruct (useProcessedLayer s0); [destruct (foundMatch _ _)|];
        intros [= <- <-]; apply Hrem; reflexivity.
  - rewrite bool_decide_eq_false_2 by discriminate.
    destruct (useProcessedLayer s0); cbn [foundMatch length Nat.ltb Nat.leb];
      intros [= <- <-]; apply Hrem; reflexivity.
Qed.

Lemma checkSkipGlyph_disk_witness :
  exists skip s',
    checkSkipGlyph edited_font "a" "H2" false = Ok (skip, s')
    /\ (disk s' = disk edited_font
        \/ exists path,
             getGlyphProcessedPath edited_font "a" = Some path
             /\ is_Some (disk edited_font !! path)
             /\ disk s' = delete path (disk edited_font)).
Proof.
  destruct (checkSkipGlyph edited_font "a" "H2" false) as [[skip s']|] eqn:E;
    [|vm_compute in E; discriminate].
  exists skip, s'. split; [reflexivity|].
  apply (checkSkipGlyph_disk edited_font s' "a" "H2" false skip E).
Defined.

(** After a successful [readHashMap] the map in memory carries the major
    version of the program: it is the persisted map as it was read, or a
    fresh map that holds the version alone. *)
Theorem readHashMap_version (s s' : UFOFontData) :
  readHashMap s = Ok s' ->
  (exists minor,
     hashMap s' !! kAdobHashMapVersionName
     = Some (HVersion (fst kAdobHashMapVersion) minor))
  /\ (hashMap s' = fresh_map \/ hashFile s = Some (hashMap s')).
Proof.
  unfold readHashMap.
  destruct (hashFile s) as [m|] eqn:Ef.
  - destruct (m !! kAdobHashMapVersionName) as [[major minor|h l]|] eqn:Ev;
      [| discriminate |].
    + destruct (fst kAdobHashMapVersion <? major) eqn:E1; [discriminate|].
      destruct (major <? fst kAdobHashMapVersion) eqn:E2.
      * intros [= <-]. cbn [hashMap set_hashMap]. split; [|left; reflexivity].
        exists (snd kAdobHashMapVersion). reflexivity.
      * intros [= <-]. cbn [hashMap set_hashMap]. split; [|right; reflexivity].
        exists minor. rewrite Ev.
        apply Z.ltb_ge in E1. apply Z.ltb_ge in E2.
        replace major with (fst kAdobHashMapVersion) by lia. reflexivity.
    + intros [= <-]. cbn [hashMap set_hashMap]. split; [|left; reflexivity].
      exists (snd kAdobHashMapVersion). reflexivity.
  - change (fresh_map !! kAdobHashMapVersionName)
      with (Some (HVersion (fst kAdobHashMapVersion) (snd kAdobHashMapVersion))).
    cbn [fst snd kAdobHashMapVersion Z.ltb Z.compare Pos.compare
         Pos.compare_cont].
    intros [= <-]. cbn [hashMap set_hashMap]. split; [|left; reflexivity].
    exists 0. reflexivity.
Qed.

Lemma readHashMap_version_witness :
  exists s',
    readHashMap empty_font = Ok s'
    /\ (exists minor,
          hashMap s' !! kAdobHashMapVersionName
          = Some (HVersion (fst kAdobHashMapVersion) minor))
    /\ (hashMap s' = fresh_map \/ hashFile empty_font = Some (hashMap s')).
Proof.
  destruct (readHashMap empty_font) as [s'|] eqn:E;
    [|vm_compute in E; discriminate].
  exists s'. split; [reflexivity|].
  apply (readHashMap_version empty_font s' E).
Defined.

(** The look-up of the file of a component, as [getComponentOutline] and
    [buildGlyphHashValue] both do it, never lets a [KeyError] out.  A path
    that is found is a file that exists or the path of the glyph in the
    default layer.  A name that is not in [glyphMap] is the parse error
    "missing from contents.plist"; the only other exception is the
    [TypeError] of a font whose [glyphMap] is [None]. *)
Theorem componentPath_found
    (s : UFOFontData) (useDefault : bool) (compGlyphName : string) :
  match componentPath s useDefault compGlyphName with
  | Ok path =>
      path_exists s path = true
      \/ getGlyphDefaultPath s compGlyphName = Ok path
  | Raise e =>
      (e = UFOParseError MissingFromContents
       /\ exists m, glyphMap s = Some m /\ m !! compGlyphName = None)
      \/ (e = TypeError /\ glyphMap s = None)
  end.
Proof.
  unfold componentPath, getGlyphSrcPath, getGlyphDefaultPath, glyphFile,
    getitem.
  destruct (glyphMap s) as [m|].
  2:{ destruct useDefault; right; split; reflexivity. }
  destruct (m !! compGlyphName) as [glyphFileName|] eqn:Eg;
    cbn [bind on_KeyError].
  - destruct useDefault; [right; reflexivity|].
    destruct (if useProcessedLayer s
              then processedLayerGlyphMap s !! compGlyphName
              else None) as [processedName|].
    + destruct (path_exists s (path_join (glyphLayerDir s) processedName))
        eqn:E1; cbn [bind].
      * rewrite E1. cbn [negb on_KeyError]. left. exact E1.
      * destruct (path_exists s (path_join (glyphDefaultDir s) processedName))
          eqn:E2; cbn [negb on_KeyError]; [left; exact E2 | right; reflexivity].
    + cbn [bind].
      destruct (path_exists s (path_join (glyphDefaultDir s) glyphFileName))
        eqn:E; cbn [negb on_KeyError]; [left; exact E | right; reflexivity].
  - destruct useDefault; left; (split; [reflexivity|]); exists m; auto.
Qed.

(** * Items of an outline that leave no trace *)

Lemma foldM_skip {A S} (f : S -> A -> res S) l1 c l2 s :
  (forall s, f s c = Ok s) ->
  foldM f (l1 ++ c :: l2) s = foldM f (l1 ++ l2) s.
Proof.
  intros Hc. rewrite !foldM_app. cbn [foldM].
  destruct (foldM f l1 s) as [s1|]; [|reflexivity]. cbn [bind].
  rewrite Hc. reflexivity.
Qed.

Lemma truthy_cons t a x c l : truthy (Some (XML t a x (c :: l))) = true.
Proof. reflexivity. Qed.

Lemma truthy_app t a x l1 c l2 :
  truthy (Some (XML t a x (l1 ++ c :: l2))) = true.
Proof. destruct l1; reflexivity. Qed.

(** The hash of a glyph does not see a contour of fewer than two children,
    nor an element that is neither a contour nor a component: the outline
    with such an item and the outline without it have the same hash and the
    same data list, at every level and whatever the digest function. *)
Theorem buildGlyphHashValue_ignores
    (sha512_hexdigest : string -> string) (self : UFOFontData) (width : Z)
    (t : string) (a : gmap string string) (x : option string)
    (l1 l2 : list XMLElement) (item : XMLElement) (glyphName : string)
    (useDefaultGlyphDir : bool) (level : nat) :
  hash_ignored item = true ->
  buildGlyphHashValue sha512_hexdigest self width
    (Some (XML t a x (l1 ++ item :: l2))) glyphName useDefaultGlyphDir level
  = buildGlyphHashValue sha512_hexdigest self width
      (Some (XML t a x (l1 ++ l2))) glyphName useDefaultGlyphDir level.
Proof.
  intros Hi. unfold buildGlyphHashValue. f_equal.
  destruct (11 - level)%nat as [|budget]; [reflexivity|].
  cbn [buildDataList children]. rewrite truthy_app.
  match goal with
  | |- foldM ?f _ ?d = _ =>
      assert (Hskip : forall d', f d' item = Ok d')
  end.
  { intros d'. unfold hash_ignored in Hi.
    destruct (String.eqb (tag item) "contour").
    - unfold contour_tokens. rewrite Hi. reflexivity.
    - apply negb_true_iff in Hi. rewrite Hi. reflexivity. }
  rewrite foldM_skip by exact Hskip.
  destruct l1 as [|c1 l1]; [destruct l2 as [|c2 l2]|]; reflexivity.
Qed.

Lemma buildGlyphHashValue_ignores_witness :
  hash_ignored (contour [point "5" "5" (Some "move")]) = true
  /\ buildGlyphHashValue (fun data => data) empty_font 500
       (Some (XML "outline" ∅ None
                ([contour triangle]
                 ++ contour [point "5" "5" (Some "move")] :: [])))
       "a" true 0
     = buildGlyphHashValue (fun data => data) empty_font 500
         (Some (XML "outline" ∅ None ([contour triangle] ++ []))) "a" true 0.
Proof.
  split; [reflexivity|].
  apply (buildGlyphHashValue_ignores (fun data => data) empty_font 500
           "outline" ∅ None [contour triangle] []
           (contour [point "5" "5" (Some "move")]) "a" true 0 eq_refl).
Defined.

(** The encoder does not see an element that is neither a contour nor a
    component, a contour without children, or a contour that is a lone
    [move] (what is left of an anchor of GLIF format 1): the outline with
    such an item and the outline without it give the same result, under
    every transform and at every level. *)
Theorem convertGlyphOutlineToBezString_ignores
    (ufoFontData : UFOFontData) (t : string) (a : gmap string string)
    (x : option string) (l1 l2 : list XMLElement) (item : XMLElement)
    (transform : option UFOTransform) (level : nat) :
  encode_ignored item = true ->
  convertGlyphOutlineToBezString (Some (XML t a x (l1 ++ item :: l2)))
    ufoFontData transform level
  = convertGlyphOutlineToBezString (Some (XML t a x (l1 ++ l2)))
      ufoFontData transform level.
Proof.
  intros Hi. unfold convertGlyphOutlineToBezString.
  destruct (11 - level)%nat as [|budget]; [reflexivity|].
  cbn [convertOutline children].
  match goal with
  | |- bind (foldM ?f _ ?d) _ = _ =>
      assert (Hskip : forall d', f d' item = Ok d')
  end.
  { intros d'. unfold encode_ignored in Hi.
    destruct (String.eqb (tag item) "component"); [discriminate|].
    destruct (String.eqb (tag item) "contour"); [|reflexivity].
    cbn [negb]. unfold convertContour.
    destruct (children item) as [|p [|q l]]; [reflexivity| |discriminate].
    apply String.eqb_eq in Hi. unfold setup_moveto. rewrite Hi. reflexivity. }
  rewrite foldM_skip by exact Hskip. reflexivity.
Qed.

Lemma convertGlyphOutlineToBezString_ignores_witness :
  encode_ignored (contour [point "5" "5" (Some "move")]) = true
  /\ convertGlyphOutlineToBezString
       (Some (XML "outline" ∅ None
                ([contour triangle]
                 ++ contour [point "5" "5" (Some "move")] :: [])))
       empty_font None 0
     = convertGlyphOutlineToBezString
         (Some (XML "outline" ∅ None ([contour triangle] ++ [])))
         empty_font None 0.
Proof.
  split; [reflexivity|].
  apply (convertGlyphOutlineToBezString_ignores empty_font "outline" ∅ None
           [contour triangle] [] (contour [point "5" "5" (Some "move")])
           None 0 eq_refl).
Defined.

Lemma concat_single sep s : String.concat sep [s] = s.
Proof. reflexivity. Qed.

(** A glyph that is one component without scale, skew or offset, drawn
    under no transform, encodes as the outline of the glyph it names, one
    level further down: the same text when that outline encodes, the same
    exception when it does not. *)
Theorem component_default_inline
    (ufoFontData : UFOFontData) (t : string) (a : gmap string string)
    (x : option string) (component : XMLElement)
    (newTransform : UFOTransform) (componentOutline : XMLElement)
    (level : nat) :
  tag component = "component" ->
  UFOTransform_init component = Ok newTransform ->
  isDefault newTransform = true ->
  getComponentOutline ufoFontData component = Ok (Some componentOutline) ->
  children componentOutline <> [] ->
  convertGlyphOutlineToBezString (Some (XML t a x [component])) ufoFontData
    None level
  = convertGlyphOutlineToBezString (Some componentOutline) ufoFontData
      None (S level).
Proof.
  intros Ht Hi Hd Ho Hc. unfold convertGlyphOutlineToBezString.
  destruct (11 - level)%nat as [|budget] eqn:Eb.
  { replace (11 - S level)%nat with 0%nat by lia. reflexivity. }
  replace (11 - S level)%nat with budget by lia.
  cbn [convertOutline children foldM]. rewrite Ht. cbn [String.eqb Ascii.eqb
    Bool.eqb].
  unfold componentTransform. rewrite Hi. cbn [bind]. rewrite Hd, Ho.
  cbn [bind].
  assert (Htr : truthy (Some componentOutline) = true).
  { destruct componentOutline as [t' a' x' [|c l]]; [contradiction|reflexivity]. }
  rewrite Htr.
  destruct (convertOutline budget ufoFontData (Some componentOutline) None)
    as [outlineBezString|e]; reflexivity.
Qed.

Lemma component_default_inline_witness :
  tag triangle_component = "component"
  /\ UFOTransform_init triangle_component = Ok default_transform
  /\ isDefault default_transform = true
  /\ getComponentOutline chain_font triangle_component
     = Ok (Some (outline [contour triangle]))
  /\ children (outline [contour triangle]) <> []
  /\ convertGlyphOutlineToBezString
       (Some (XML "outline" ∅ None [triangle_component])) chain_font None 0
     = convertGlyphOutlineToBezString (Some (outline [contour triangle]))
         chain_font None 1.
Proof.
  assert (H1 : UFOTransform_init triangle_component = Ok default_transform)
    by (vm_compute; reflexivity).
  assert (H2 : getComponentOutline chain_font triangle_component
               = Ok (Some (outline [contour triangle])))
    by (vm_compute; reflexivity).
  assert (H3 : children (outline [contour triangle]) <> []) by discriminate.
  split; [reflexivity|]. split; [exact H1|]. split; [reflexivity|].
  split; [exact H2|]. split; [exact H3|].
  apply (component_default_inline chain_font "outline" ∅ None
           triangle_component default_transform (outline [contour triangle]) 0
           eq_refl H1 eq_refl H2 H3).
Defined.

(** * The decoder: operators *)

Lemma float_of_known token q :
  float_of_string token = Ok q -> str_in token known_operators = false.
Proof.
  intros Hf. destruct (str_in token known_operators) eqn:E; [|reflexivity].
  apply str_in_spec in E. unfold known_operators in E. cbn [In] in E.
  repeat (destruct E as [<-|E]; [vm_compute in Hf; discriminate|]).
  destruct E.
Qed.

(** A token that is neither a number nor a known operator stops the loop. *)
Lemma step_unknown st token :
  is_number token = false ->
  str_in token known_operators = false ->
  step st token = Raise (BezParseError token).
Proof.
  unfold is_number, step. intros Hn Hk.
  destruct (float_of_string token); [discriminate|].
  unfold str_in, known_operators in Hk. cbn [existsb] in Hk.
  repeat (apply orb_false_iff in Hk; destruct Hk as [? Hk]).
  unfold str_in. cbn [existsb].
  repeat match goal with
  | H : String.eqb token _ = false |- _ => rewrite H; clear H
  end.
  cbn [orb]. rewrite andb_false_r. reflexivity.
Qed.

(** The operators whose branch is [pass] leave the state as it is. *)
Lemma step_ignored st token :
  str_in token ignored_operators = true -> step st token = Ok st.
Proof.
  intros E. apply str_in_spec in E. unfold ignored_operators in E.
  cbn [In] in E.
  repeat (destruct E as [<-|E]; [reflexivity|]).
  destruct E.
Qed.

Lemma op_point_flags token st st' :
  op_point token st = Ok st' ->
  seenHints st' = seenHints st /\ flexList st' = flexList st.
Proof.
  unfold op_point.
  destruct (getindex (argList st) 0) as [a0|]; [|discriminate].
  destruct (getindex (argList st) 1) as [a1|]; [|discriminate].
  cbn [bind].
  destruct (if str_in token ["mt"; "dt"] then _ else _) as [cx cy].
  destruct (String.eqb (bezToUFOPoint token) "move").
  - destruct (outlineItem st) as [points|]; cbn [bind].
    + destruct (length points =? 1)%nat; cbn [bind].
      * intros [= <-]. split; reflexivity.
      * destruct (fixStartPoint points (opList st)); [|discriminate].
        cbn [bind]. intros [= <-]. split; reflexivity.
    + intros [= <-]. split; reflexivity.
  - cbn [bind]. destruct (outlineItem st); [|discriminate].
    intros [= <-]. split; reflexivity.
Qed.

Lemma op_ct_flags st st' :
  op_ct st = Ok st' ->
  seenHints st' = seenHints st /\ flexList st' = flexList st.
Proof.
  unfold op_ct.
  destruct (append_curve (argList st) (outlineItem st)) as [[[points x] y]|];
    [|discriminate].
  cbn [bind]. intros [= <-]. split; reflexivity.
Qed.

Lemma op_flxa_hinted st st' : op_flxa st = Ok st' -> hinted st' = true.
Proof.
  unfold op_flxa.
  destruct (append_curve (argList st) (outlineItem st)) as [[[p1 x1] y1]|];
    [|discriminate].
  cbn [bind].
  destruct (append_curve _ (Some p1)) as [[[p2 x2] y2]|]; [|discriminate].
  cbn [bind]. intros [= <-]. unfold hinted. cbn [flexList seenHints].
  rewrite length_app. cbn [length].
  replace (0 <? length (flexList st) + 1)%nat with true
    by (symmetry; apply Nat.ltb_lt; lia).
  apply orb_true_r.
Qed.

Lemma hinted_flags st st' :
  seenHints st' = seenHints st /\ flexList st' = flexList st ->
  hinted st' = hinted st.
Proof. intros [H1 H2]. unfold hinted. rewrite H1, H2. reflexivity. Qed.

(** One turn of the loop sets the test of the hint record exactly when its
    token is a hint operator. *)
Lemma step_hinted st token st' :
  step st token = Ok st' ->
  hinted st' = hinted st || str_in token hint_operators.
Proof.
  destruct (is_number token) eqn:En.
  { unfold is_number in En. unfold step.
    destruct (float_of_string token) as [q|] eqn:Ef; [|discriminate].
    intros [= <-].
    assert (Hh : str_in token hint_operators = false).
    { destruct (str_in token hint_operators) eqn:E; [|reflexivity].
      apply str_in_spec in E. unfold hint_operators in E. cbn [In] in E.
      repeat (destruct E as [<-|E]; [vm_compute in Ef; discriminate|]).
      destruct E. }
    rewrite Hh, orb_false_r. reflexivity. }
  destruct (str_in token known_operators) eqn:Ek.
  2:{ rewrite (step_unknown st token En Ek). discriminate. }
  clear En. apply str_in_spec in Ek. unfold known_operators in Ek.
  cbn [In] in Ek.
  repeat (destruct Ek as [<-|Ek];
          [try (intros [= <-]; rewrite orb_false_r; reflexivity)|]);
    [ .. | destruct Ek ].
  - (* div *)
    change (step st "div") with (op_div st). unfold op_div.
    destruct (rev (argList st)) as [|b [|a r]]; try discriminate.
    destruct (Qeq_bool b 0); [discriminate|].
    intros [= <-]. rewrite orb_false_r. reflexivity.
  - (* rb *) intros [= <-]. rewrite orb_true_r. reflexivity.
  - (* ry *) intros [= <-]. rewrite orb_true_r. reflexivity.
  - (* rm *) intros [= <-]. rewrite orb_true_r. reflexivity.
  - (* rv *) intros [= <-]. rewrite orb_true_r. reflexivity.
  - (* flxa *)
    change (step st "flxa") with (op_flxa st). intros H.
    rewrite (op_flxa_hinted _ _ H), orb_true_r. reflexivity.
  - (* rmt *)
    change (step st "rmt")
      with (if inPreFlex st && true then Ok st else op_point "rmt" st).
    destruct (inPreFlex st); cbn [andb];
      [intros [= <-]; rewrite orb_false_r; reflexivity|].
    intros H. rewrite orb_false_r.
    apply hinted_flags, (op_point_flags _ _ _ H).
  - (* mt *)
    change (step st "mt")
      with (if inPreFlex st && true then Ok st else op_point "mt" st).
    destruct (inPreFlex st); cbn [andb];
      [intros [= <-]; rewrite orb_false_r; reflexivity|].
    intros H. rewrite orb_false_r.
    apply hinted_flags, (op_point_flags _ _ _ H).
  - (* dt *)
    rewrite step_dt. intros H. rewrite orb_false_r.
    apply hinted_flags, (op_point_flags _ _ _ H).
  - (* ct *)
    rewrite step_ct. intros H. rewrite orb_false_r.
    apply hinted_flags, (op_ct_flags _ _ H).
Qed.

Lemma foldM_hinted tokens :
  forall st st',
  foldM step tokens st = Ok st' ->
  hinted st' = hinted st
               || existsb (fun token => str_in token hint_operators) tokens.
Proof.
  induction tokens as [|token tokens IH]; intros st st'; cbn [foldM existsb].
  - intros [= <-]. rewrite orb_false_r. reflexivity.
  - destruct (step st token) as [st1|] eqn:Es; [|discriminate]. cbn [bind].
    intros H. rewrite (IH _ _ H), (step_hinted _ _ _ Es), orb_assoc.
    reflexivity.
Qed.

Lemma make_hintInfoDict_hinted st r :
  make_hintInfoDict st = Ok r -> (is_Some r <-> hinted st = true).
Proof.
  unfold make_hintInfoDict. fold (hinted st).
  destruct (hinted st).
  - destruct (foldM _ _ _) as [hintSets|]; [|discriminate]. cbn [bind].
    intros [= <-]. split; [reflexivity | eauto].
  - intros [= <-]. split; [intros [x Hx]; discriminate | discriminate].
Qed.

(** The decoder returns a hint record exactly for the streams that hold a
    hint operator ([rb], [ry], [rm], [rv] or [flxa]). *)
Theorem convertBezToOutline_hints
    (ufoFontData : UFOFontData) (glyphName bezString : string) (d : decoded) :
  convertBezToOutline ufoFontData glyphName bezString = Ok d ->
  (is_Some (decoded_hints d) <-> has_hint_operator bezString = true).
Proof.
  unfold convertBezToOutline, has_hint_operator, bez_tokens.
  destruct (findall_S (strip_comments bezString)) as [|token tokens].
  { intros [= <-]. cbn [decoded_hints existsb].
    split; [intros [x Hx]; discriminate | discriminate]. }
  destruct (foldM step (token :: tokens) init_dstate) as [st|] eqn:Ef;
    [|discriminate].
  cbn [bind]. destruct (finish_outline st) as [contours|]; [|discriminate].
  cbn [bind].
  destruct (make_hintInfoDict st) as [hintInfoDict|] eqn:Eh; [|discriminate].
  cbn [bind]. intros [= <-]. cbn [decoded_hints].
  rewrite (make_hintInfoDict_hinted _ _ Eh), (foldM_hinted _ _ _ Ef).
  reflexivity.
Qed.

Lemma convertBezToOutline_hints_witness :
  exists d,
    convertBezToOutline empty_font "a" bez_hstem3 = Ok d
    /\ (is_Some (decoded_hints d) <-> has_hint_operator bez_hstem3 = true).
Proof.
  destruct (convertBezToOutline empty_font "a" bez_hstem3) as [d|] eqn:E;
    [|vm_compute in E; discriminate].
  exists d. split; [reflexivity|].
  apply (convertBezToOutline_hints empty_font "a" bez_hstem3 d E).
Defined.

Lemma foldM_raises {A S} (f : S -> A -> res S) l :
  Exists (fun a => forall s, raises (f s a)) l ->
  forall s, raises (foldM f l s).
Proof.
  induction 1 as [a l Ha | a l _ IH]; intros s; cbn [foldM].
  - destruct (Ha s) as [e ->]. exists e. reflexivity.
  - destruct (f s a) as [s1|e]; cbn [bind]; [apply IH | exists e; reflexivity].
Qed.

Lemma uint_of_string_chars s d :
  NilEmpty.uint_of_string s = Some d -> all_chars float_char s = true.
Proof.
  revert d. induction s as [|c s IH]; intros d; [reflexivity|].
  cbn [NilEmpty.uint_of_string all_chars].
  destruct (NilEmpty.uint_of_string s) as [d'|];
    [|destruct c as [[] [] [] [] [] [] [] []]; discriminate].
  rewrite (IH d' eq_refl), andb_true_r.
  destruct c as [[] [] [] [] [] [] [] []]; try discriminate; reflexivity.
Qed.

Lemma split_dot_chars body :
  forall ip fp,
  split_dot body = (ip, fp) ->
  all_chars float_char ip = true ->
  all_chars float_char (default EmptyString fp) = true ->
  all_chars float_char body = true.
Proof.
  induction body as [|c body IH]; intros ip fp; cbn [split_dot];
    [reflexivity|].
  destruct (Ascii.eqb c ".") eqn:Ec.
  - apply Ascii.eqb_eq in Ec. subst c. intros [= <- <-] _ Hf.
    cbn [all_chars]. exact Hf.
  - destruct (split_dot body) as [a b]. intros [= <- <-] Hi Hf.
    cbn [all_chars] in *. apply andb_true_iff in Hi. destruct Hi as [Hc Hi].
    rewrite Hc. apply (IH a b eq_refl Hi Hf).
Qed.

(** The texts that [float_of_string] reads are made of digits, signs and
    dots. *)
Lemma float_of_string_chars s q :
  float_of_string s = Ok q -> all_chars float_char s = true.
Proof.
  unfold float_of_string, float_body.
  assert (Hs : forall neg body, sign_split s = (neg, body) ->
               all_chars float_char body = true ->
               all_chars float_char s = true).
  { intros neg body. unfold sign_split.
    destruct s as [|c s']; [intros [= <- <-]; auto|].
    destruct c as [[] [] [] [] [] [] [] []]; intros [= <- <-]; auto. }
  destruct (sign_split s) as [neg body].
  destruct (split_dot body) as [ip fp] eqn:Ed.
  destruct (NilEmpty.uint_of_string ip) as [di|] eqn:Ei; [|discriminate].
  destruct (NilEmpty.uint_of_string (default EmptyString fp)) as [df|] eqn:Ef;
    [|discriminate].
  intros _. apply (Hs neg body eq_refl).
  apply (split_dot_chars body ip fp Ed);
    eapply uint_of_string_chars; eassumption.
Qed.

Lemma float_char_not_foreign c :
  float_char c = true -> foreign_letter c = false.
Proof.
  destruct c as [[] [] [] [] [] [] [] []]; try reflexivity; discriminate.
Qed.

Lemma foreign_not_number token :
  has_foreign_letter token = true -> is_number token = false.
Proof.
  unfold has_foreign_letter, is_number. intros H.
  destruct (float_of_string token) as [q|] eqn:Ef; [|reflexivity].
  apply float_of_string_chars in Ef. apply negb_true_iff in H.
  rewrite (all_chars_impl float_char (fun c => negb (foreign_letter c))) in H;
    [discriminate | | exact Ef].
  intros c Hc. rewrite (float_char_not_foreign c Hc). reflexivity.
Qed.

(** The decoder accepts no stream that holds a token which cannot be a
    number, for a letter that no text read by [float] holds, and which is
    not one of its operators: the call raises, whatever stands before and
    after the token. *)
Theorem convertBezToOutline_unknown_token
    (ufoFontData : UFOFontData) (glyphName bezString : string) :
  has_unknown_token bezString = true ->
  raises (convertBezToOutline ufoFontData glyphName bezString).
Proof.
  unfold has_unknown_token, bez_tokens, convertBezToOutline. intros H.
  apply existsb_exists in H. destruct H as (token & Hin & Ht).
  apply andb_true_iff in Ht. destruct Ht as [Hn Hk].
  apply foreign_not_number in Hn. apply negb_true_iff in Hk.
  destruct (findall_S (strip_comments bezString)) as [|t0 tokens] eqn:Et;
    [destruct Hin|].
  assert (R : raises (foldM step (t0 :: tokens) init_dstate)).
  { apply foldM_raises. apply List.Exists_exists. exists token.
    split; [exact Hin|]. intros s. exists (BezParseError token).
    apply step_unknown; assumption. }
  destruct R as [e ->]. exists e. reflexivity.
Qed.

Lemma convertBezToOutline_unknown_token_witness :
  has_unknown_token "0 0 mt 10 0 lineto cp" = true
  /\ raises (convertBezToOutline empty_font "a" "0 0 mt 10 0 lineto cp").
Proof.
  split; [vm_compute; reflexivity|].
  apply (convertBezToOutline_unknown_token empty_font "a"
           "0 0 mt 10 0 lineto cp").
  vm_compute. reflexivity.
Defined.

Lemma foldM_marking tokens :
  forall st, foldM step tokens st = foldM step (marking tokens) st.
Proof.
  induction tokens as [|token tokens IH]; intros st; [reflexivity|].
  unfold marking. cbn [List.filter foldM].
  destruct (str_in token ignored_operators) eqn:E; cbn [negb].
  - rewrite (step_ignored st token E). cbn [bind]. apply IH.
  - cbn [foldM]. destruct (step st token) as [st1|]; [|reflexivity].
    cbn [bind]. apply IH.
Qed.

(** The decoder reads neither the font nor the glyph name, and the
    operators [newcolors], [beginsubr], [endsubr], [enc], [sc], [cp] and
    [ed] tell it nothing: two streams that are not empty and have the same
    tokens once these operators are taken out decode to the same result. *)
Theorem convertBezToOutline_ignored_operators
    (font1 font2 : UFOFontData) (name1 name2 bez1 bez2 : string) :
  bez_tokens bez1 <> [] ->
  bez_tokens bez2 <> [] ->
  marking (bez_tokens bez1) = marking (bez_tokens bez2) ->
  convertBezToOutline font1 name1 bez1 = convertBezToOutline font2 name2 bez2.
Proof.
  unfold convertBezToOutline, bez_tokens. intros H1 H2 Hm.
  destruct (findall_S (strip_comments bez1)) as [|t1 l1]; [contradiction|].
  destruct (findall_S (strip_comments bez2)) as [|t2 l2]; [contradiction|].
  rewrite (foldM_marking (t1 :: l1)), (foldM_marking (t2 :: l2)), Hm.
  reflexivity.
Qed.

Lemma convertBezToOutline_ignored_operators_witness :
  bez_tokens "sc 0 0 mt 10 0 dt 10 10 dt cp ed" <> []
  /\ bez_tokens "0 0 mt 10 0 dt 10 10 dt" <> []
  /\ convertBezToOutline empty_font "a" "sc 0 0 mt 10 0 dt 10 10 dt cp ed"
     = convertBezToOutline chain_font "b" "0 0 mt 10 0 dt 10 10 dt".
Proof.
  assert (H1 : bez_tokens "sc 0 0 mt 10 0 dt 10 10 dt cp ed" <> [])
    by (vm_compute; discriminate).
  assert (H2 : bez_tokens "0 0 mt 10 0 dt 10 10 dt" <> [])
    by (vm_compute; discriminate).
  split; [exact H1|]. split; [exact H2|].
  apply (convertBezToOutline_ignored_operators empty_font chain_font "a" "b"
           _ _ H1 H2).
  vm_compute. reflexivity.
Defined.

Lemma strip_aux_line w rest :
  one_line w = true ->
  snd (strip_aux (w +:+ String newline rest)) = Some (strip_comments rest).
Proof.
  unfold strip_comments.
  induction w as [|c w IH]; intros Hw.
  - change ("" +:+ String newline rest) with (String newline rest).
    cbn [strip_aux]. destruct (strip_aux rest) as [r nl].
    rewrite Ascii.eqb_refl. reflexivity.
  - cbn [one_line all_chars] in Hw. apply andb_true_iff in Hw.
    destruct Hw as [Hc Hw]. apply negb_true_iff in Hc.
    specialize (IH Hw).
    change (String c w +:+ String newline rest)
      with (String c (w +:+ String newline rest)).
    cbn [strip_aux].
    destruct (strip_aux (w +:+ String newline rest)) as [r nl].
    cbn [snd] in IH. subst nl. rewrite Hc.
    destruct (Ascii.eqb c "%"); [|reflexivity].
    destruct (w +:+ String newline rest) as [|c' s']; [reflexivity|].
    destruct (Ascii.eqb c' newline); reflexivity.
Qed.

Lemma strip_comment_line glyphName rest :
  one_line glyphName = true ->
  strip_comments (("% " +:+ glyphName) +:+ String newline rest)
  = strip_comments rest.
Proof.
  intros Hn.
  assert (Hw : one_line (String " " glyphName) = true) by exact Hn.
  pose proof (strip_aux_line _ rest Hw) as Hs.
  unfold strip_comments at 1.
  change (("% " +:+ glyphName) +:+ String newline rest)
    with (String "%" (String " " glyphName +:+ String newline rest)).
  cbn [strip_aux].
  destruct (strip_aux (String " " glyphName +:+ String newline rest))
    as [r nl].
  cbn [snd] in Hs. subst nl.
  change (String " " glyphName +:+ String newline rest)
    with (String " " (glyphName +:+ String newline rest)).
  reflexivity.
Qed.

Lemma glyph_program_tokens glyphName bezString :
  one_line glyphName = true ->
  no_percent bezString = true ->
  bez_tokens (glyph_program glyphName bezString)
  = "sc" :: bez_tokens bezString ++ ["ed"].
Proof.
  intros Hn Hb. unfold bez_tokens.
  change (glyph_program glyphName bezString)
    with (("% " +:+ glyphName)
          +:+ String newline
                (String.concat (String newline "") ["sc"; bezString; "ed"; ""])).
  rewrite (strip_comment_line _ _ Hn).
  rewrite strip_comments_no_percent.
  2:{ apply no_percent_concat; [reflexivity|].
      cbn [forallb]. rewrite Hb. reflexivity. }
  rewrite (findall_S_concat newline _ eq_refl).
  rewrite (strip_comments_no_percent _ Hb).
  cbn [flat_map].
  change (findall_S "sc") with ["sc"]. change (findall_S "ed") with ["ed"].
  change (findall_S "") with (@nil string). reflexivity.
Qed.

(** The decoder reads the text of an outline and the glyph program that
    [convertGLIFToBez] makes of it alike: the comment line with the glyph
    name is stripped and [sc] and [ed] are passed over.  The glyph name
    must be on one line, and the text must hold a token and no comment. *)
Theorem glyph_program_decodes
    (ufoFontData : UFOFontData) (glyphName bezString : string) :
  one_line glyphName = true ->
  no_percent bezString = true ->
  bez_tokens bezString <> [] ->
  convertBezToOutline ufoFontData glyphName (glyph_program glyphName bezString)
  = convertBezToOutline ufoFontData glyphName bezString.
Proof.
  intros Hn Hb Ht. unfold convertBezToOutline.
  change (findall_S (strip_comments (glyph_program glyphName bezString)))
    with (bez_tokens (glyph_program glyphName bezString)).
  change (findall_S (strip_comments bezString)) with (bez_tokens bezString).
  rewrite (glyph_program_tokens _ _ Hn Hb).
  destruct (bez_tokens bezString) as [|token tokens]; [contradiction|].
  assert (Hrun : foldM step ("sc" :: (token :: tokens) ++ ["ed"]) init_dstate
                 = foldM step (token :: tokens) init_dstate).
  { rewrite (foldM_marking ("sc" :: _)), (foldM_marking (token :: tokens)).
    f_equal. unfold marking.
    change (List.filter ?f ("sc" :: ?l)) with (List.filter f l).
    rewrite List.filter_app. apply app_nil_r. }
  rewrite Hrun. reflexivity.
Qed.

Lemma glyph_program_decodes_witness :
  one_line "a" = true /\ no_percent triangle_bez = true
  /\ bez_tokens triangle_bez <> []
  /\ convertBezToOutline empty_font "a" (glyph_program "a" triangle_bez)
     = convertBezToOutline empty_font "a" triangle_bez.
Proof.
  assert (Ht : bez_tokens triangle_bez <> []) by (vm_compute; discriminate).
  split; [reflexivity|]. split; [reflexivity|]. split; [exact Ht|].
  apply (glyph_program_decodes empty_font "a" triangle_bez eq_refl eq_refl Ht).
Defined.

(** * Round trip: the decoder on the stream of the encoder *)



(** ** On-curve points *)





(** ** The points the decoder makes *)






















(** * Exceptions of the constructor of transforms and of the hash builder *)

Lemma foldM_raise_inv {A S} (f : S -> A -> res S) l :
  forall s e,
  foldM f l s = Raise e -> exists a s', In a l /\ f s' a = Raise e.
Proof.
  induction l as [|a l IH]; intros s e; cbn [foldM]; [discriminate|].
  destruct (f s a) as [s1|e1] eqn:E; cbn [bind].
  - intros H. destruct (IH _ _ H) as (b & s' & Hin & Hb).
    exists b, s'. split; [right; exact Hin | exact Hb].
  - intros [= <-]. exists a, s. split; [left; reflexivity | exact E].
Qed.

Lemma init_tag_error componentXML a tag e :
  In tag kTransformTagList ->
  init_tag componentXML a tag = Raise e ->
  e = ValueError
  /\ exists v, attrib componentXML !! tag = Some v
               /\ float_of_string v = Raise ValueError.
Proof.
  intros Hin. unfold init_tag.
  assert (Hcases : tag = "xScale" \/ tag = "xyScale" \/ tag = "yxScale"
                   \/ tag = "yScale" \/ tag = "xOffset" \/ tag = "yOffset").
  { simpl in Hin. intuition auto. }
  destruct (attrib componentXML !! tag) as [v|].
  - destruct (float_of_string v) as [f|e'] eqn:Ef.
    + destruct Hcases as [-> | [-> | [-> | [-> | [-> | ->]]]]];
        cbn [str_in existsb String.eqb Ascii.eqb Bool.eqb orb bind];
        try discriminate; destruct (negb _); discriminate.
    + pose proof (float_of_string_error _ _ Ef) as ->.
      destruct (str_in tag ["xScale"; "yScale"]); cbn [bind];
        intros [= <-]; split; eauto.
  - destruct (str_in tag ["xScale"; "yScale"]); discriminate.
Qed.

(** The constructor of a transform raises in one case only: an attribute of
    the six transform tags that is not a number, and the exception is the
    [ValueError] of [float].  The error "Unknown tag" of its last branch is
    never raised. *)
Theorem UFOTransform_init_error (componentXML : XMLElement) (e : exn) :
  UFOTransform_init componentXML = Raise e ->
  e = ValueError
  /\ exists tag v,
       In tag kTransformTagList
       /\ attrib componentXML !! tag = Some v
       /\ float_of_string v = Raise ValueError.
Proof.
  unfold UFOTransform_init.
  destruct (foldM (init_tag componentXML) kTransformTagList _) as [a|e1] eqn:E;
    cbn [bind]; [discriminate|].
  intros [= <-].
  destruct (foldM_raise_inv _ _ _ _ E) as (tag & s' & Hin & Ht).
  destruct (init_tag_error _ _ _ _ Hin Ht) as (-> & v & Hv & Hf).
  split; [reflexivity|]. exists tag, v. auto.
Qed.

Lemma UFOTransform_init_error_witness :
  UFOTransform_init bad_scale = Raise ValueError
  /\ exists tag v,
       In tag kTransformTagList
       /\ attrib bad_scale !! tag = Some v
       /\ float_of_string v = Raise ValueError.
Proof.
  assert (H : UFOTransform_init bad_scale = Raise ValueError)
    by (vm_compute; reflexivity).
  split; [exact H|].
  apply (UFOTransform_init_error bad_scale ValueError H).
Defined.

(** A component without [base] is not reported alike by the two walks over
    an outline: the encoder raises the parse error "attribute missing from
    component", the hash builder raises [TypeError], because the message of
    its handler has two places for one argument.  This holds for a component
    that comes first in the outline, at every level up to 10. *)
Theorem missing_base_errors
    (sha512_hexdigest : string -> string) (self : UFOFontData) (width : Z)
    (t : string) (a : gmap string string) (x : option string)
    (component : XMLElement) (items : list XMLElement) (glyphName : string)
    (useDefaultGlyphDir : bool) (transform : option UFOTransform)
    (level : nat) :
  (level <= 10)%nat ->
  tag component = "component" ->
  attrib component !! "base" = None ->
  buildGlyphHashValue sha512_hexdigest self width
    (Some (XML t a x (component :: items))) glyphName useDefaultGlyphDir level
  = Raise TypeError
  /\ (raises (UFOTransform_init component)
      \/ convertGlyphOutlineToBezString
           (Some (XML t a x (component :: items))) self transform level
         = Raise (UFOParseError MissingBase)).
Proof.
  intros Hl Ht Hb. split.
  - unfold buildGlyphHashValue.
    destruct (11 - level)%nat as [|budget] eqn:Eb; [lia|].
    cbn [buildDataList truthy children foldM]. rewrite Ht.
    cbn [String.eqb Ascii.eqb Bool.eqb]. unfold getitem. rewrite Hb.
    reflexivity.
  - unfold convertGlyphOutlineToBezString.
    destruct (11 - level)%nat as [|budget] eqn:Eb; [lia|].
    cbn [convertOutline children foldM]. rewrite Ht.
    cbn [String.eqb Ascii.eqb Bool.eqb].
    unfold componentTransform.
    destruct (UFOTransform_init component) as [newTransform|e] eqn:Ei;
      [|left; exists e; reflexivity].
    right. cbn [bind].
    assert (Hc : getComponentOutline self component
                 = Raise (UFOParseError MissingBase)).
    { unfold getComponentOutline, getitem. rewrite Hb. reflexivity. }
    destruct (isDefault newTransform), transform; cbn [bind]; rewrite Hc;
      reflexivity.
Qed.

Lemma missing_base_errors_witness :
  (0 <= 10)%nat /\ tag nameless = "component"
  /\ attrib nameless !! "base" = None
  /\ buildGlyphHashValue (fun data => data) empty_font 500
       (Some (XML "outline" ∅ None (nameless :: []))) "a" true 0
     = Raise TypeError
  /\ (raises (UFOTransform_init nameless)
      \/ convertGlyphOutlineToBezString
           (Some (XML "outline" ∅ None (nameless :: []))) empty_font None 0
         = Raise (UFOParseError MissingBase)).
Proof.
  split; [lia|]. split; [reflexivity|]. split; [reflexivity|].
  apply (missing_base_errors (fun data => data) empty_font 500 "outline" ∅
           None nameless [] "a" true None 0); [lia | reflexivity | reflexivity].
Defined.

(** * The depth limit, for every nesting of components *)

Lemma convertOutline_S budget' ufoFontData o transform :
  convertOutline (S budget') ufoFontData (Some o) transform
  = (let* bezStringList :=
       foldM (outline_item budget' ufoFontData transform) (children o) [] in
     Ok (String.concat (String "010" "") bezStringList)).
Proof. reflexivity. Qed.

Lemma buildDataList_S budget' self width o glyphName useDefaultGlyphDir :
  buildDataList (S budget') self width (Some o) glyphName useDefaultGlyphDir
  = if truthy (Some o)
    then foldM (hash_item budget' self width glyphName useDefaultGlyphDir)
           (children o) ["w" +:+ str_int width]
    else Ok ["w" +:+ str_int width].
Proof. reflexivity. Qed.

Lemma is_depth_error_iff {A} (r : res A) :
  is_depth_error r = true <-> r = Raise (UFOParseError ExceededLevels).
Proof.
  split; [|intros ->; reflexivity].
  destruct r as [a|[[]| | | | | | |]]; try discriminate. reflexivity.
Qed.

Lemma bind_depth_inv {A B} (m : res A) (k : A -> res B) :
  is_depth_error (bind m k) = true ->
  is_depth_error m = true \/ exists a, m = Ok a /\ is_depth_error (k a) = true.
Proof.
  destruct m as [a|e]; cbn [bind]; [right; exists a; auto | left; assumption].
Qed.

Lemma foldM_depth_inv {A S} (f : S -> A -> res S) l s :
  is_depth_error (foldM f l s) = true ->
  exists a s', In a l /\ is_depth_error (f s' a) = true.
Proof.
  intros H. apply is_depth_error_iff in H.
  destruct (foldM_raise_inv _ _ _ _ H) as (a & s' & Hin & Ha).
  exists a, s'. split; [exact Hin | apply is_depth_error_iff; exact Ha].
Qed.

Lemma UFOTransform_init_no_depth componentXML :
  is_depth_error (UFOTransform_init componentXML) = false.
Proof.
  unfold UFOTransform_init.
  destruct (foldM (init_tag componentXML) kTransformTagList _) as [a|e] eqn:E;
    [reflexivity|].
  destruct (foldM_raise_inv _ _ _ _ E) as (tag & s' & Hin & Ht).
  destruct (init_tag_error _ _ _ _ Hin Ht) as (-> & _). reflexivity.
Qed.

Lemma componentTransform_no_depth outlineItem transform :
  is_depth_error (componentTransform outlineItem transform) = false.
Proof.
  unfold componentTransform.
  apply bind_no_depth; [apply UFOTransform_init_no_depth|].
  intros t. destruct (isDefault t), transform; reflexivity.
Qed.

Lemma glyphFile_no_depth s glyphName :
  is_depth_error (glyphFile s glyphName) = false.
Proof.
  unfold glyphFile. destruct (glyphMap s); [apply getitem_no_depth|reflexivity].
Qed.

Lemma getGlyphDefaultPath_no_depth s glyphName :
  is_depth_error (getGlyphDefaultPath s glyphName) = false.
Proof.
  unfold getGlyphDefaultPath.
  apply bind_no_depth; [apply glyphFile_no_depth | reflexivity].
Qed.

Lemma componentPath_no_depth s useDefault compGlyphName :
  is_depth_error (componentPath s useDefault compGlyphName) = false.
Proof.
  unfold componentPath. destruct useDefault.
  - apply on_KeyError_no_depth;
      [apply getGlyphDefaultPath_no_depth | reflexivity].
  - apply on_KeyError_no_depth.
    + apply bind_no_depth.
      * unfold getGlyphSrcPath.
        apply bind_no_depth; [apply glyphFile_no_depth|]. intros f.
        destruct (if useProcessedLayer s then _ else _); [|reflexivity].
        destruct (path_exists s _); reflexivity.
      * intros p. destruct (negb _);
          [apply getGlyphDefaultPath_no_depth | reflexivity].
    + apply on_KeyError_no_depth;
        [apply getGlyphDefaultPath_no_depth | reflexivity].
Qed.

Lemma getComponentOutline_no_depth s componentItem :
  is_depth_error (getComponentOutline s componentItem) = false.
Proof.
  unfold getComponentOutline.
  apply bind_no_depth.
  { apply on_KeyError_no_depth; [apply getitem_no_depth | reflexivity]. }
  intros compGlyphName.
  apply bind_no_depth; [apply componentPath_no_depth|]. intros p.
  destruct (disk s !! p); reflexivity.
Qed.

(** The encoder raises the error of the limit only below as many nested
    component references as it has levels left. *)
Lemma convertOutline_depth_nested font budget :
  forall o transform,
  is_depth_error (convertOutline budget font (Some o) transform) = true ->
  enc_nested font o budget.
Proof.
  induction budget as [|budget IH]; intros o transform H; [constructor|].
  rewrite convertOutline_S in H.
  apply bind_depth_inv in H. destruct H as [H|(l & _ & H)]; [|discriminate].
  apply foldM_depth_inv in H. destruct H as (item & st & Hin & H).
  unfold outline_item in H.
  destruct (String.eqb (tag item) "component") eqn:Et.
  2:{ destruct (negb _); [discriminate|].
      rewrite convertContour_no_depth in H. discriminate. }
  apply String.eqb_eq in Et.
  apply bind_depth_inv in H. destruct H as [H|(newTransform & _ & H)].
  { rewrite componentTransform_no_depth in H. discriminate. }
  apply bind_depth_inv in H. destruct H as [H|(componentOutline & Hc & H)].
  { rewrite getComponentOutline_no_depth in H. discriminate. }
  destruct (truthy componentOutline) eqn:Htr; [|discriminate].
  destruct componentOutline as [inner|]; [|discriminate].
  apply bind_depth_inv in H. destruct H as [H|(b & _ & H)]; [|discriminate].
  apply (enc_nested_S font o inner budget).
  - exists item. auto.
  - apply (IH _ _ H).
Qed.

(** Below as many nested component references as it has levels left, the
    encoder returns no text. *)
Lemma convertOutline_nested_raises font o budget :
  enc_nested font o budget ->
  forall transform, raises (convertOutline budget font (Some o) transform).
Proof.
  induction 1 as [o | o inner n (item & Hin & Ht & Hc & Htr) _ IH];
    intros transform.
  { exists (UFOParseError ExceededLevels). reflexivity. }
  rewrite convertOutline_S.
  assert (R : raises (foldM (outline_item n font transform) (children o) [])).
  { apply foldM_raises. apply List.Exists_exists. exists item.
    split; [exact Hin|]. intros st. unfold outline_item.
    rewrite Ht. cbn [String.eqb Ascii.eqb Bool.eqb].
    destruct (componentTransform item transform) as [newTransform|e];
      [|exists e; reflexivity].
    cbn [bind]. rewrite Hc. cbn [bind]. rewrite Htr.
    destruct (IH newTransform) as [e ->]. exists e. reflexivity. }
  destruct R as [e ->]. exists e. reflexivity.
Qed.

(** When each reference is the first item of its outline, the exception is
    the error of the limit. *)
Lemma convertOutline_spine font transform o budget :
  enc_spine font transform o budget ->
  convertOutline budget font (Some o) transform
  = Raise (UFOParseError ExceededLevels).
Proof.
  induction 1 as [transform o
                 | transform o item rest newTransform inner n Hch Ht Hn Hc Htr
                     _ IH];
    [reflexivity|].
  rewrite convertOutline_S, Hch. cbn [foldM]. unfold outline_item at 1.
  rewrite Ht. cbn [String.eqb Ascii.eqb Bool.eqb].
  rewrite Hn. cbn [bind]. rewrite Hc. cbn [bind]. rewrite Htr, IH.
  reflexivity.
Qed.

Lemma component_not_contour item :
  tag item = "component" -> String.eqb (tag item) "contour" = false.
Proof. intros ->. reflexivity. Qed.

(** The same three facts for the hash builder. *)
Lemma buildDataList_depth_nested self width glyphName useDefaultGlyphDir budget :
  forall outlineXML,
  is_depth_error
    (buildDataList budget self width outlineXML glyphName useDefaultGlyphDir)
  = true ->
  hash_nested self useDefaultGlyphDir outlineXML budget.
Proof.
  induction budget as [|budget IH]; intros outlineXML H; [constructor|].
  destruct outlineXML as [o|]; [|discriminate].
  rewrite buildDataList_S in H.
  destruct (truthy (Some o)) eqn:Htr; [|discriminate].
  apply foldM_depth_inv in H. destruct H as (item & st & Hin & H).
  unfold hash_item in H.
  destruct (String.eqb (tag item) "contour").
  { rewrite contour_tokens_no_depth in H. discriminate. }
  destruct (String.eqb (tag item) "component") eqn:Et; [|discriminate].
  apply String.eqb_eq in Et.
  unfold getitem in H.
  destruct (attrib item !! "base") as [compGlyphName|] eqn:Eb;
    [|discriminate].
  cbn [on_KeyError bind] in H.
  apply bind_depth_inv in H. destruct H as [H|(path & Hp & H)].
  { rewrite componentPath_no_depth in H. discriminate. }
  destruct (disk self !! path) as [componentXML|] eqn:Ed; [|discriminate].
  apply bind_depth_inv in H. destruct H as [H|(l & _ & H)]; [|discriminate].
  apply (hash_nested_S self useDefaultGlyphDir o (find "outline" componentXML)).
  - split; [exact Htr|].
    exists item, compGlyphName, path, componentXML. auto 7.
  - apply (IH _ H).
Qed.

Lemma buildDataList_nested_raises self width glyphName useDefaultGlyphDir
    outlineXML budget :
  hash_nested self useDefaultGlyphDir outlineXML budget ->
  raises (buildDataList budget self width outlineXML glyphName
            useDefaultGlyphDir).
Proof.
  induction 1 as [o | o inner n
                        (Htr & item & name & path & cx & Hin & Ht & Hb & Hp
                         & Hd & ->) _ IH].
  { exists (UFOParseError ExceededLevels). reflexivity. }
  rewrite buildDataList_S, Htr.
  apply foldM_raises. apply List.Exists_exists. exists item.
  split; [exact Hin|]. intros st. unfold hash_item.
  rewrite (component_not_contour _ Ht), Ht.
  cbn [String.eqb Ascii.eqb Bool.eqb]. unfold getitem. rewrite Hb.
  cbn [on_KeyError bind]. rewrite Hp. cbn [bind]. rewrite Hd.
  destruct IH as [e ->]. exists e. reflexivity.
Qed.

Lemma buildDataList_spine self width glyphName useDefaultGlyphDir
    outlineXML budget :
  hash_spine self useDefaultGlyphDir outlineXML budget ->
  buildDataList budget self width outlineXML glyphName useDefaultGlyphDir
  = Raise (UFOParseError ExceededLevels).
Proof.
  induction 1 as [o | o item rest name path cx n Hch Ht Hb Hp Hd _ IH];
    [reflexivity|].
  rewrite buildDataList_S.
  assert (Htr : truthy (Some o) = true).
  { destruct o as [t a x c]. cbn [children] in Hch. subst c. reflexivity. }
  rewrite Htr, Hch. cbn [foldM]. unfold hash_item at 1.
  rewrite (component_not_contour _ Ht), Ht.
  cbn [String.eqb Ascii.eqb Bool.eqb]. unfold getitem. rewrite Hb.
  cbn [on_KeyError bind]. rewrite Hp. cbn [bind]. rewrite Hd, IH.
  reflexivity.
Qed.

Lemma hash_raises sha self width outlineXML glyphName useDefaultGlyphDir level :
  raises (buildDataList (11 - level) self width outlineXML glyphName
            useDefaultGlyphDir) ->
  raises (buildGlyphHashValue sha self width outlineXML glyphName
            useDefaultGlyphDir level).
Proof.
  unfold buildGlyphHashValue. intros [e ->]. exists e. reflexivity.
Qed.

Lemma hash_depth sha self width outlineXML glyphName useDefaultGlyphDir level :
  is_depth_error (buildGlyphHashValue sha self width outlineXML glyphName
                    useDefaultGlyphDir level) = true ->
  is_depth_error (buildDataList (11 - level) self width outlineXML glyphName
                    useDefaultGlyphDir) = true.
Proof.
  unfold buildGlyphHashValue. intros H. apply bind_depth_inv in H.
  destruct H as [H|(l & _ & H)]; [exact H|].
  destruct (_ <? _)%nat; discriminate.
Qed.

(** The chain of [chain_font]: each glyph up to [g10] is one reference to
    the next. *)
Lemma chain_spine :
  forall n k, (n + k = 11)%nat ->
  enc_spine chain_font None (chain_outline k) n
  /\ hash_spine chain_font true (Some (chain_outline k)) n.
Proof.
  induction n as [|n IH]; intros k Hk; [split; constructor|].
  destruct (IH (S k)) as [He Hh]; [lia|].
  assert (Hlt : (k < 11)%nat) by lia.
  do 11 (destruct k as [|k];
         [split;
          [ eapply enc_spine_S; [reflexivity | reflexivity | vm_compute; reflexivity
                                | vm_compute; reflexivity | reflexivity | exact He]
          | eapply hash_spine_S; [reflexivity | reflexivity | reflexivity
                                 | vm_compute; reflexivity | vm_compute; reflexivity
                                 | exact Hh] ]
         |]).
  lia.
Qed.

(** C8. Component resolution is limited to depth 10 in the encoder and in
    the hash builder, for every font and every nesting.  A call at level
    [level] has [11 - level] levels left.  Below that many nested component
    references the call returns nothing: it raises.  It raises the
    [UFOParseError] of the limit only below that many nested references, so
    that a nesting of depth 10 or less never meets the limit; and when each
    reference is the first item of its outline, so that nothing is done
    before the descent, the exception raised is that [UFOParseError].  On
    the chain [g0 -> g1 -> ... -> g11] of [chain_font]: from [g1], a nesting
    of depth exactly 10, both succeed; from [g0], of depth 11, both raise
    the error of the limit. *)
Theorem component_depth_limit
    (sha : string -> string) (font : UFOFontData) (o : XMLElement)
    (transform : option UFOTransform) (width : Z) (glyphName : string)
    (useDefault : bool) (level : nat) :
  (enc_nested font o (11 - level) ->
   raises (convertGlyphOutlineToBezString (Some o) font transform level))
  /\ (is_depth_error
        (convertGlyphOutlineToBezString (Some o) font transform level) = true ->
      enc_nested font o (11 - level))
  /\ (enc_spine font transform o (11 - level) ->
      convertGlyphOutlineToBezString (Some o) font transform level
      = Raise (UFOParseError ExceededLevels))
  /\ (hash_nested font useDefault (Some o) (11 - level) ->
      raises (buildGlyphHashValue sha font width (Some o) glyphName useDefault
                level))
  /\ (is_depth_error
        (buildGlyphHashValue sha font width (Some o) glyphName useDefault level)
      = true ->
      hash_nested font useDefault (Some o) (11 - level))
  /\ (hash_spine font useDefault (Some o) (11 - level) ->
      buildGlyphHashValue sha font width (Some o) glyphName useDefault level
      = Raise (UFOParseError ExceededLevels))
  /\ convertGlyphOutlineToBezString (Some (chain_outline 1)) chain_font None 0
     = Ok triangle_bez
  /\ (exists h, buildGlyphHashValue sha chain_font 500 (Some (chain_outline 1))
                  "g1" true 0 = Ok (h, chain_tokens))
  /\ convertGlyphOutlineToBezString (Some (chain_outline 0)) chain_font None 0
     = Raise (UFOParseError ExceededLevels)
  /\ buildGlyphHashValue sha chain_font 500 (Some (chain_outline 0)) "g0" true 0
     = Raise (UFOParseError ExceededLevels).
Proof.
  unfold convertGlyphOutlineToBezString.
  split; [intros H; apply (convertOutline_nested_raises _ _ _ H)|].
  split; [apply convertOutline_depth_nested|].
  split; [apply convertOutline_spine|].
  split; [intros H; apply hash_raises, buildDataList_nested_raises, H|].
  split.
  { intros H. apply hash_depth in H.
    apply (buildDataList_depth_nested font width glyphName useDefault _ _ H). }
  split.
  { intros H. unfold buildGlyphHashValue.
    rewrite (buildDataList_spine _ _ _ _ _ _ H). reflexivity. }
  split; [vm_compute; reflexivity|].
  split; [eexists; vm_compute; reflexivity|].
  destruct (chain_spine 11 0 eq_refl) as [He Hh].
  split; [apply (convertOutline_spine _ _ _ _ He)|].
  unfold buildGlyphHashValue.
  change (11 - 0)%nat with 11%nat.
  rewrite (buildDataList_spine _ _ _ _ _ _ Hh). reflexivity.
Qed.

Lemma component_depth_limit_witness :
  enc_spine chain_font None (chain_outline 0) (11 - 0)
  /\ convertGlyphOutlineToBezString (Some (chain_outline 0)) chain_font None 0
     = Raise (UFOParseError ExceededLevels).
Proof.
  assert (Hs : enc_spine chain_font None (chain_outline 0) (11 - 0))
    by (apply (chain_spine 11 0); reflexivity).
  split; [exact Hs|].
  destruct (component_depth_limit (fun s => s) chain_font (chain_outline 0)
              None 500 "g0" true 0) as (_ & _ & H & _).
  apply H. exact Hs.
Defined.

(** * The round trip and the coordinates as written *)











